(** * IntelliHire code-execution engine: a shallow embedding of
      [finalcorefeature/code-execution.js] and its properties.

    The module under study materialises user code on disk, optionally
    compiles it, runs it under a deadline, removes the files it made
    and (for the test harness) compares trimmed output with the expected
    value.  Everything the JavaScript does to the outside world is kept
    explicit here: the file system, the monotonic clock, and the trace
    of calls made to [fs], [child_process.exec] and [console].  The
    creation of the execution directory when the module is loaded is
    not part of the two exported functions and is not modelled. *)

From Stdlib Require Import ZArith NArith List Ascii String Lia Bool.
From stdpp Require Import base option list gmap.

Local Open Scope Z_scope.
Local Open Scope list_scope.

(** ** JavaScript strings

    A JavaScript string is a sequence of UTF-16 code units; the regular
    expressions of the module (no [u] flag) and [String.prototype.trim]
    work on code units. *)

Definition jsstring : Type := list N.

(** An ASCII literal as a JavaScript string. *)
Definition lit (s : string) : jsstring :=
  List.map N_of_ascii (list_ascii_of_string s).
Arguments lit : simpl never.

(** [WhiteSpace] and [LineTerminator] of ECMAScript: what [\s] matches
    and what [trim] strips. *)
Definition is_space (c : N) : bool :=
  (existsb (N.eqb c)
     [9; 10; 11; 12; 13; 32; 160; 5760; 8232; 8233; 8239; 8287; 12288; 65279]
   || ((8192 <=? c) && (c <=? 8202)))%N.

(** [\w] without the [i]/[u] flags: [A-Za-z0-9_]. *)
Definition is_word (c : N) : bool :=
  (((65 <=? c) && (c <=? 90)) || ((97 <=? c) && (c <=? 122))
   || ((48 <=? c) && (c <=? 57)) || (c =? 95))%N.

Definition is_char (d : N) (c : N) : bool := (c =? d)%N.
Definition not_char (d : N) (c : N) : bool := negb (c =? d)%N.

(** [String.prototype.trim]. *)
Fixpoint trimStart (s : jsstring) : jsstring :=
  match s with
  | c :: s' => if is_space c then trimStart s' else s
  | [] => []
  end.

Definition trim (s : jsstring) : jsstring :=
  rev (trimStart (rev (trimStart s))).

(** Decimal digits of a non-negative integer, most significant first;
    [decimal] is [BigInt::toString] in radix 10. *)
Fixpoint digits_fuel (fuel : nat) (n : N) (acc : jsstring) : jsstring :=
  match fuel with
  | O => acc
  | S fuel' =>
      let acc' := (48 + n mod 10)%N :: acc in
      if (n <? 10)%N then acc' else digits_fuel fuel' (n / 10)%N acc'
  end.

Definition decimal (z : Z) : jsstring :=
  let n := Z.to_N (Z.abs z) in
  let ds := digits_fuel (S (N.to_nat (N.log2 n))) n [] in
  if z <? 0 then 45%N :: ds else ds.

(** ** Regular expressions of the module

    Every pattern used by the module is a sequence of literal pieces and
    greedy repetitions of a one-character class, so a pattern is a list
    of such items.  Matching follows the backtracking order of
    ECMAScript: a greedy repetition first tries to take one more
    character and falls back to the shorter match when the rest of the
    pattern fails. *)

Inductive item : Type :=
| Lit (s : jsstring)
| Star (f : N -> bool)
| Plus (f : N -> bool).

Fixpoint strip_prefix (p s : jsstring) : option jsstring :=
  match p, s with
  | [], _ => Some s
  | a :: p', b :: s' => if (a =? b)%N then strip_prefix p' s' else None
  | _ :: _, [] => None
  end.

Definition cons_first (c : N) (r : option (list jsstring * jsstring))
  : option (list jsstring * jsstring) :=
  match r with
  | Some (m :: ms, rest) => Some ((c :: m) :: ms, rest)
  | _ => None
  end.

Definition push_piece (m : jsstring) (r : option (list jsstring * jsstring))
  : option (list jsstring * jsstring) :=
  match r with
  | Some (ms, rest) => Some (m :: ms, rest)
  | None => None
  end.

(** A greedy repetition of the class [f] followed by the rest of the
    pattern [k]: longest first, then shorter. *)
Fixpoint greedy (f : N -> bool)
    (k : jsstring -> option (list jsstring * jsstring)) (s : jsstring)
  : option (list jsstring * jsstring) :=
  match s with
  | c :: s' =>
      if f c then
        match cons_first c (greedy f k s') with
        | Some r => Some r
        | None => push_piece [] (k s)
        end
      else push_piece [] (k s)
  | [] => push_piece [] (k s)
  end.

(** [match_here p s]: match [p] at the start of [s]; on success the text
    matched by each item and the unmatched rest. *)
Fixpoint match_here (p : list item) (s : jsstring)
  : option (list jsstring * jsstring) :=
  match p with
  | [] => Some ([], s)
  | Lit l :: p' =>
      match strip_prefix l s with
      | Some rest => push_piece l (match_here p' rest)
      | None => None
      end
  | Star f :: p' => greedy f (match_here p') s
  | Plus f :: p' =>
      match s with
      | c :: s' => if f c then cons_first c (greedy f (match_here p') s') else None
      | [] => None
      end
  end.

(** The result of [RegExp.prototype.exec] on a non-global pattern: the
    text before the match, the pieces matched, the text after it. *)
Record rmatch : Type := {
  m_before : jsstring;
  m_pieces : list jsstring;
  m_after : jsstring
}.

Definition m_text (m : rmatch) : jsstring := concat (m_pieces m).

Fixpoint search_from (p : list item) (before s : jsstring) : option rmatch :=
  match match_here p s with
  | Some (ms, rest) =>
      Some {| m_before := before; m_pieces := ms; m_after := rest |}
  | None =>
      match s with
      | [] => None
      | c :: s' => search_from p (before ++ [c]) s'
      end
  end.

Definition regex_exec (p : list item) (s : jsstring) : option rmatch :=
  search_from p [] s.

(** [GetSubstitution] for a pattern without capture groups: in the
    replacement text [$$] is a dollar sign, [$&] the matched text,
    [$`] the text before the match and [$'] the text after it; any
    other use of [$] stands for itself. *)
Fixpoint getSubstitution (m : rmatch) (repl : jsstring) : jsstring :=
  match repl with
  | [] => []
  | c :: r =>
      if (c =? 36)%N then
        match r with
        | d :: r' =>
            if (d =? 36)%N then 36%N :: getSubstitution m r'
            else if (d =? 38)%N then m_text m ++ getSubstitution m r'
            else if (d =? 96)%N then m_before m ++ getSubstitution m r'
            else if (d =? 39)%N then m_after m ++ getSubstitution m r'
            else c :: getSubstitution m r
        | [] => [c]
        end
      else c :: getSubstitution m r
  end.

(** [String.prototype.replace] with a non-global pattern and a
    replacement string. *)
Definition replace (p : list item) (repl s : jsstring) : jsstring :=
  match regex_exec p s with
  | Some m => m_before m ++ getSubstitution m repl ++ m_after m
  | None => s
  end.

(** The three patterns of the module. *)

(** [/public\s+class\s+(\w+)/] *)
Definition publicClassRe : list item :=
  [Lit (lit "public"); Plus is_space; Lit (lit "class"); Plus is_space;
   Plus is_word].

(** The capture group [(\w+)] is the fifth item. *)
Definition group1 (m : rmatch) : jsstring := nth 4 (m_pieces m) [].

(** [/public static void main\([^)]*\)\s*{[^}]*}/s] *)
Definition javaMainRe : list item :=
  [Lit (lit "public static void main("); Star (not_char 41); Lit (lit ")");
   Star is_space; Lit (lit "{"); Star (not_char 125); Lit (lit "}")].

(** [/int main\([^)]*\)\s*{[^}]*}/s] *)
Definition cppMainRe : list item :=
  [Lit (lit "int main("); Star (not_char 41); Lit (lit ")");
   Star is_space; Lit (lit "{"); Star (not_char 125); Lit (lit "}")].

(** ** The outside world

    What [fs], [child_process], [crypto], [process.hrtime] and [console]
    do is described by a state, the [World], and by an [Env] that says
    how the machine answers: which writes and deletions fail, what each
    child process does.  *)

(** A thrown [Error]; only its [message] is ever read. *)
Record Exn : Type := { message : jsstring }.

(** The [error] argument of the [exec] callback. *)
Record ExecError : Type := {
  err_killed : bool;
  err_signal : option jsstring;
  err_message : jsstring
}.

(** What one child process does: the arguments of the [exec] callback,
    how long it ran (nanoseconds) and what it left on disk.  Every
    child ends, by itself or killed at the deadline, so the callback is
    always called. *)
Record ProcOutcome : Type := {
  p_error : option ExecError;
  p_stdout : jsstring;
  p_stderr : jsstring;
  p_elapsed : Z;
  p_effect : gmap jsstring jsstring -> gmap jsstring jsstring
}.

(** The calls that reach the outside, each with the exception it threw,
    if any. *)
Inductive Event : Type :=
| EWrite (path data : jsstring) (threw : option Exn)
| EUnlink (path : jsstring) (threw : option Exn)
| ESpawn (command : jsstring) (timeout : Z) (threw : option Exn)
| EConsoleError (line : jsstring) (err : Exn).

Record World : Type := {
  files : gmap jsstring jsstring;      (* path to content *)
  clock : Z;                           (* monotonic time, nanoseconds *)
  entropy : nat;                       (* number of randomBytes calls so far *)
  trace : list Event                   (* calls made so far, oldest first *)
}.

(** The machine: which calls throw, what a write that throws leaves at
    its path ([writeResidue]: nothing new when the file could not be
    opened, else the part written before the failure), how long a write
    takes and what the child processes do. *)
Record Env : Type := {
  executionDir : jsstring;
  randomHex : nat -> jsstring;
  writeError : jsstring -> World -> option Exn;
  writeResidue : jsstring -> jsstring -> World -> option jsstring;
  writeLatency : Z;
  unlinkError : jsstring -> World -> option Exn;
  spawnError : jsstring -> World -> option Exn;
  child : jsstring -> Z -> World -> ProcOutcome
}.

Definition set_files (f : gmap jsstring jsstring) (w : World) : World :=
  {| files := f; clock := clock w; entropy := entropy w; trace := trace w |}.

Definition advance (d : Z) (w : World) : World :=
  {| files := files w; clock := clock w + d; entropy := entropy w;
     trace := trace w |}.

Definition record (ev : Event) (w : World) : World :=
  {| files := files w; clock := clock w; entropy := entropy w;
     trace := trace w ++ [ev] |}.

Definition next_entropy (w : World) : World :=
  {| files := files w; clock := clock w; entropy := S (entropy w);
     trace := trace w |}.

(** The world after a successful [writeFileSync]. *)
Definition wrote (env : Env) (path data : jsstring) (w : World) : World :=
  advance (writeLatency env)
    (set_files (<[path := data]> (files w)) (record (EWrite path data None) w)).

(** The world after a [writeFileSync] that threw [e].  The file is
    opened with flag [w] (created or truncated) before anything is
    written: unless opening itself failed ([writeResidue] gives [None])
    the path now holds what had been written when the call failed. *)
Definition write_failed (env : Env) (path data : jsstring) (e : Exn)
    (w : World) : World :=
  let w' := record (EWrite path data (Some e)) w in
  match writeResidue env path data w with
  | Some d => set_files (<[path := d]> (files w)) w'
  | None => w'
  end.

(** The world after a successful [unlinkSync]. *)
Definition unlinked (path : jsstring) (w : World) : World :=
  set_files (delete path (files w)) (record (EUnlink path None) w).

(** The world once the child process started by [exec] has ended. *)
Definition ran (env : Env) (command : jsstring) (timeout : Z) (w : World)
  : World :=
  let o := child env command timeout w in
  advance (p_elapsed o)
    (set_files (p_effect o (files w)) (record (ESpawn command timeout None) w)).

(** ** Computations

    A computation reads and writes the world and the mutable locals [L]
    of the function it belongs to ([filesToCleanup] in [executeCode],
    [results] in [runTestCases]), and either completes normally or
    throws.  A [catch] handler sees the locals as they were when the
    exception was thrown. *)

Inductive Completion (A : Type) : Type :=
| Normal (a : A)
| Throw (e : Exn).
Arguments Normal {A} a.
Arguments Throw {A} e.

Definition M (L A : Type) : Type := L -> World -> Completion A * L * World.

Definition ret {L A} (a : A) : M L A := fun l w => (Normal a, l, w).

Definition throw {L A} (e : Exn) : M L A := fun l w => (Throw e, l, w).

Definition bind {L A B} (m : M L A) (k : A -> M L B) : M L B :=
  fun l w =>
    match m l w with
    | (Normal a, l', w') => k a l' w'
    | (Throw e, l', w') => (Throw e, l', w')
    end.

Definition try_catch {L A} (body : M L A) (handler : Exn -> M L A) : M L A :=
  fun l w =>
    match body l w with
    | (Normal a, l', w') => (Normal a, l', w')
    | (Throw e, l', w') => handler e l' w'
    end.

Definition get_local {L} : M L L := fun l w => (Normal l, l, w).
Definition set_local {L} (l' : L) : M L unit := fun _ w => (Normal tt, l', w).
Definition get_world {L} : M L World := fun l w => (Normal w, l, w).
Definition modify_world {L} (f : World -> World) : M L unit :=
  fun l w => (Normal tt, l, f w).

(** [await f(...)]: the function called runs on the caller's world and
    leaves the caller's locals alone. *)
Definition await {L A} (f : World -> Completion A * World) : M L A :=
  fun l w => let '(c, w') := f w in (c, l, w').

Declare Scope js_scope.
Delimit Scope js_scope with js.
Notation "'let*' x ':=' m 'in' k" := (bind m (fun x => k))
  (at level 10, x name, m at level 100, k at level 200) : js_scope.
Notation "m ';;' k" := (bind m (fun _ => k))
  (at level 100, k at level 200, right associativity) : js_scope.
Local Open Scope js_scope.

Fixpoint forEach {L A} (xs : list A) (f : A -> M L unit) : M L unit :=
  match xs with
  | [] => ret tt
  | x :: xs' => f x ;; forEach xs' f
  end.

(** [a || b] on strings: the empty string is the only falsy one. *)
Definition or_else (a b : jsstring) : jsstring :=
  match a with [] => b | _ :: _ => a end.

(** ** Data of the module *)

(** The result objects of the module: [success] is always there, the
    other properties only where the code writes them. *)
Record Result : Type := {
  success : bool;
  output : option jsstring;
  error : option jsstring;
  executionTime : option Z
}.

Inductive Language : Type := JavaScript | Python | Java | Cpp.

(** The [case] labels of [switch (language)]; [None] is [default]. *)
Definition switch_language (language : jsstring) : option Language :=
  if decide (language = lit "javascript") then Some JavaScript
  else if decide (language = lit "python") then Some Python
  else if decide (language = lit "java") then Some Java
  else if decide (language = lit "cpp") then Some Cpp
  else None.

(** The values a test case can hold: data, as it arrives in a message,
    with the standard prototypes.  A Number is held as the text
    [Number::toString] gives for it (["42"], ["0.1"], ["1e+21"],
    ["1152921504606847000"] for 2 ** 60, ["NaN"]), which determines the
    number up to the sign of zero; an object is the list of its own
    properties in enumeration order. *)
#[warnings="-register-all"]
Inductive JSValue : Type :=
| VUndefined
| VNull
| VBool (b : bool)
| VNum (text : jsstring)
| VBigInt (z : Z)
| VStr (s : jsstring)
| VArr (items : list JSValue)
| VObj (props : list (jsstring * JSValue)).

Module TestCase.
Record t : Type := { input : JSValue; output : JSValue }.
End TestCase.

(** The objects pushed onto [results]: the properties of a [Result]
    (spread, or written out in the two failure literals) and those the
    harness adds. *)
Record TestResult : Type := {
  result : Result;
  testPassed : option bool;
  expected : option JSValue;
  test : TestCase.t
}.

(** A call that completes at once, normally or with an exception. *)
Definition lift {L A} (c : Completion A) : M L A :=
  match c with
  | Normal a => ret a
  | Throw e => throw e
  end.

(** [Array.prototype.join] on strings. *)
Fixpoint join_with (sep : jsstring) (parts : list jsstring) : jsstring :=
  match parts with
  | [] => []
  | [x] => x
  | x :: rest => x ++ sep ++ join_with sep rest
  end.

Definition hexdigit (n : N) : N :=
  if (n <? 10)%N then (48 + n)%N else (87 + n)%N.

Definition unicode_escape (c : N) : jsstring :=
  [92; 117; hexdigit ((c / 4096) mod 16); hexdigit ((c / 256) mod 16);
   hexdigit ((c / 16) mod 16); hexdigit (c mod 16)]%N.

Definition is_high_surrogate (c : N) : bool := ((55296 <=? c) && (c <=? 56319))%N.
Definition is_low_surrogate (c : N) : bool := ((56320 <=? c) && (c <=? 57343))%N.

Fixpoint quote_units (s : jsstring) : jsstring :=
  match s with
  | [] => []
  | c :: s' =>
      if (c =? 8)%N then lit "\b" ++ quote_units s'
      else if (c =? 9)%N then lit "\t" ++ quote_units s'
      else if (c =? 10)%N then lit "\n" ++ quote_units s'
      else if (c =? 12)%N then lit "\f" ++ quote_units s'
      else if (c =? 13)%N then lit "\r" ++ quote_units s'
      else if (c =? 34)%N then [92; 34]%N ++ quote_units s'
      else if (c =? 92)%N then [92; 92]%N ++ quote_units s'
      else if (c <? 32)%N then unicode_escape c ++ quote_units s'
      else if is_high_surrogate c then
        match s' with
        | d :: s'' =>
            if is_low_surrogate d then c :: d :: quote_units s''
            else unicode_escape c ++ quote_units s'
        | [] => unicode_escape c
        end
      else if is_low_surrogate c then unicode_escape c ++ quote_units s'
      else c :: quote_units s'
  end.

(** [QuoteJSONString] *)
Definition QuoteJSONString (s : jsstring) : jsstring :=
  [34%N] ++ quote_units s ++ [34%N].

(** The texts of the Numbers that are not finite. *)
Definition is_nonfinite (text : jsstring) : bool :=
  bool_decide (text = lit "NaN") || bool_decide (text = lit "Infinity")
  || bool_decide (text = lit "-Infinity").

(** [SerializeJSONProperty]: [None] is [undefined]. *)
Fixpoint SerializeJSONProperty (v : JSValue) : Completion (option jsstring) :=
  match v with
  | VUndefined => Normal None
  | VNull => Normal (Some (lit "null"))
  | VBool b => Normal (Some (if b then lit "true" else lit "false"))
  | VNum text =>
      Normal (Some (if is_nonfinite text then lit "null" else text))
  | VBigInt _ =>
      Throw {| message := lit "Do not know how to serialize a BigInt" |}
  | VStr s => Normal (Some (QuoteJSONString s))
  | VArr items =>
      match
        (fix elems (l : list JSValue) : Completion (list jsstring) :=
           match l with
           | [] => Normal []
           | x :: l' =>
               match SerializeJSONProperty x with
               | Throw e => Throw e
               | Normal o =>
                   match elems l' with
                   | Throw e => Throw e
                   | Normal r => Normal (default (lit "null") o :: r)
                   end
               end
           end) items
      with
      | Throw e => Throw e
      | Normal parts =>
          Normal (Some (lit "[" ++ join_with (lit ",") parts ++ lit "]"))
      end
  | VObj props =>
      match
        (fix members (l : list (jsstring * JSValue))
           : Completion (list jsstring) :=
           match l with
           | [] => Normal []
           | (k, x) :: l' =>
               match SerializeJSONProperty x with
               | Throw e => Throw e
               | Normal o =>
                   match members l' with
                   | Throw e => Throw e
                   | Normal r =>
                       match o with
                       | Some t => Normal ((QuoteJSONString k ++ lit ":" ++ t) :: r)
                       | None => Normal r
                       end
                   end
               end
           end) props
      with
      | Throw e => Throw e
      | Normal parts =>
          Normal (Some (lit "{" ++ join_with (lit ",") parts ++ lit "}"))
      end
  end.

(** The text of [JSON.stringify(v)] inside a template literal. *)
Definition JSON_stringify (v : JSValue) : Completion jsstring :=
  match SerializeJSONProperty v with
  | Normal (Some t) => Normal t
  | Normal None => Normal (lit "undefined")
  | Throw e => Throw e
  end.

Definition TypeError_primitive : Exn :=
  {| message := lit "Cannot convert object to primitive value" |}.

(** The object has an own property [key]. *)
Definition has_own (key : jsstring) (props : list (jsstring * JSValue)) : bool :=
  existsb (fun kv => bool_decide (fst kv = key)) props.

(** [String(v)].  An array is joined by [Array.prototype.toString], its
    elements converted from left to right.  An object is converted by
    [OrdinaryToPrimitive]: an own [toString] property holds data, which
    cannot be called, and [valueOf] gives no primitive, so the
    conversion throws; without one [Object.prototype.toString] answers. *)
Fixpoint String_ (v : JSValue) : Completion jsstring :=
  match v with
  | VUndefined => Normal (lit "undefined")
  | VNull => Normal (lit "null")
  | VBool b => Normal (if b then lit "true" else lit "false")
  | VNum text => Normal text
  | VBigInt z => Normal (decimal z)
  | VStr s => Normal s
  | VArr items =>
      match
        (fix elems (l : list JSValue) : Completion (list jsstring) :=
           match l with
           | [] => Normal []
           | x :: l' =>
               match
                 match x with
                 | VUndefined | VNull => Normal []
                 | _ => String_ x
                 end
               with
               | Throw e => Throw e
               | Normal s =>
                   match elems l' with
                   | Throw e => Throw e
                   | Normal r => Normal (s :: r)
                   end
               end
           end) items
      with
      | Throw e => Throw e
      | Normal parts => Normal (join_with (lit ",") parts)
      end
  | VObj props =>
      if has_own (lit "toString") props then Throw TypeError_primitive
      else Normal (lit "[object Object]")
  end.

Definition TypeError_trim : Exn :=
  {| message := lit "Cannot read properties of undefined (reading 'trim')" |}.

Section Engine.

Variable env : Env.

(** [path.join(executionDir, name)] for a [name] without separators or
    dots-only segments, [executionDir] being already normalised. *)
Definition path_join (name : jsstring) : jsstring :=
  executionDir env ++ lit "/" ++ name.

(** [crypto.randomBytes(16).toString('hex')] *)
Definition randomBytesHex {L} : M L jsstring :=
  let* w := get_world in
  modify_world next_entropy ;;
  ret (randomHex env (entropy w)).

(** [process.hrtime()] as seconds and nanoseconds. *)
Definition hrtime {L} : M L (Z * Z) :=
  let* w := get_world in
  ret (clock w / 1000000000, clock w mod 1000000000).

(** [process.hrtime(startTime)]: the time elapsed since [startTime]. *)
Definition hrtime_since {L} (startTime : Z * Z) : M L (Z * Z) :=
  let* w := get_world in
  let d := clock w - (fst startTime * 1000000000 + snd startTime) in
  ret (d / 1000000000, d mod 1000000000).

(** [fs.writeFileSync(path, data)] *)
Definition writeFileSync {L} (path data : jsstring) : M L unit :=
  let* w := get_world in
  match writeError env path w with
  | Some e => modify_world (write_failed env path data e) ;; throw e
  | None => modify_world (wrote env path data)
  end.

Definition ENOENT (path : jsstring) : Exn :=
  {| message := lit "ENOENT: no such file or directory, unlink '"
                  ++ path ++ lit "'" |}.

(** [fs.unlinkSync(path)] *)
Definition unlinkSync {L} (path : jsstring) : M L unit :=
  let* w := get_world in
  match files w !! path with
  | None =>
      modify_world (record (EUnlink path (Some (ENOENT path)))) ;;
      throw (ENOENT path)
  | Some _ =>
      match unlinkError env path w with
      | Some e => modify_world (record (EUnlink path (Some e))) ;; throw e
      | None => modify_world (unlinked path)
      end
  end.

Definition console_error {L} (line : jsstring) (e : Exn) : M L unit :=
  modify_world (record (EConsoleError line e)).

(** [exec(command, { timeout }, callback)] awaited through the promise
    around it: the callback's [error], [stdout] and [stderr].  A failure
    to spawn can be thrown synchronously. *)
Definition exec {L} (command : jsstring) (timeout : Z)
  : M L (option ExecError * jsstring * jsstring) :=
  let* w := get_world in
  match spawnError env command w with
  | Some e => modify_world (record (ESpawn command timeout (Some e))) ;; throw e
  | None =>
      let o := child env command timeout w in
      modify_world (ran env command timeout) ;;
      ret (p_error o, p_stdout o, p_stderr o)
  end.

(** ** The engine *)

(** Maximum execution time in milliseconds. *)
Definition MAX_EXECUTION_TIME : Z := 5000.

(** Clean up temporary files. *)
Definition cleanupFiles {L} (filePaths : list jsstring) : M L unit :=
  forEach filePaths (fun filePath =>
    try_catch (unlinkSync filePath)
      (fun err =>
         console_error
           (lit "Failed to delete temp file " ++ filePath ++ lit ":") err)).

(** The compile step, written twice in the source (once with [javac],
    once with [g++]): the object the promise around [exec] resolves
    to. *)
Definition compile {L} (compileCommand : jsstring) : M L Result :=
  let* r := exec compileCommand MAX_EXECUTION_TIME in
  let '(error, stdout, stderr) := r in
  match error with
  | Some e =>
      ret {| success := false;
             output := None;
             error := Some (or_else stderr (err_message e));
             executionTime := Some 0 |}
  | None =>
      ret {| success := true; output := None; error := None;
             executionTime := None |}
  end.

Definition push {A} (xs : list A) : M (list A) unit :=
  let* l := get_local in set_local (l ++ xs).

(** "Prepare files and commands based on language": the [switch].  It
    either leaves the function with a result ([inl], a [return] inside
    the [switch]) or goes on with the command to run ([inr]).  The
    locals are [filesToCleanup]. *)
Definition prepare (code language executionId : jsstring)
  : M (list jsstring) (Result + jsstring) :=
  match switch_language language with
  | Some JavaScript =>
      let filePath := path_join (executionId ++ lit ".js") in
      writeFileSync filePath code ;;
      let commandToRun := lit "node " ++ filePath in
      push [filePath] ;;
      ret (inr commandToRun)
  | Some Python =>
      let filePath := path_join (executionId ++ lit ".py") in
      writeFileSync filePath code ;;
      let commandToRun := lit "python " ++ filePath in
      push [filePath] ;;
      ret (inr commandToRun)
  | Some Java =>
      match regex_exec publicClassRe code with
      | None =>
          ret (inl {| success := false;
                      output := None;
                      error := Some (lit "Could not find a public class in your Java code");
                      executionTime := Some 0 |})
      | Some classNameMatch =>
          let className := group1 classNameMatch in
          let filePath := path_join (className ++ lit ".java") in
          writeFileSync filePath code ;;
          let compileCommand :=
            lit "javac -d " ++ executionDir env ++ lit " " ++ filePath in
          let* compileResult := compile compileCommand in
          if negb (success compileResult) then
            cleanupFiles [filePath] ;;
            ret (inl compileResult)
          else
            let commandToRun :=
              lit "java -cp " ++ executionDir env ++ lit " " ++ className in
            push [filePath; path_join (className ++ lit ".class")] ;;
            ret (inr commandToRun)
      end
  | Some Cpp =>
      let filePath := path_join (executionId ++ lit ".cpp") in
      let outputPath := path_join executionId in
      writeFileSync filePath code ;;
      let cppCompileCommand :=
        lit "g++ " ++ filePath ++ lit " -o " ++ outputPath in
      let* cppCompileResult := compile cppCompileCommand in
      if negb (success cppCompileResult) then
        cleanupFiles [filePath] ;;
        ret (inl cppCompileResult)
      else
        let commandToRun := outputPath in
        push [filePath; outputPath] ;;
        ret (inr commandToRun)
  | None =>
      ret (inl {| success := false;
                  output := None;
                  error := Some (lit "Unsupported language: " ++ language);
                  executionTime := Some 0 |})
  end.

(** [Math.round((endTime[0] * 1000) + (endTime[1] / 1000000))] for a
    non-negative nanosecond part: the floating-point value is within
    1e-9 of the exact quotient, so rounding to the nearest integer, ties
    upwards, is this integer expression. *)
Definition round_ms (endTime : Z * Z) : Z :=
  fst endTime * 1000 + (snd endTime + 500000) / 1000000.

(** "Execute the code with timeout". *)
Definition run (commandToRun : jsstring) (startTime : Z * Z)
  : M (list jsstring) Result :=
  let* r := exec commandToRun MAX_EXECUTION_TIME in
  let '(error, stdout, stderr) := r in
  let* endTime := hrtime_since startTime in
  let executionTime := round_ms endTime in
  match error with
  | Some e =>
      if err_killed e && bool_decide (err_signal e = Some (lit "SIGTERM")) then
        ret {| success := false;
               output := None;
               error := Some (lit "Execution timed out");
               executionTime := Some executionTime |}
      else
        ret {| success := false;
               output := None;
               error := Some (or_else stderr (err_message e));
               executionTime := Some executionTime |}
  | None =>
      ret {| success := true;
             output := Some stdout;
             error := None;
             executionTime := Some executionTime |}
  end.

(** The body of [executeCode]; its locals are [filesToCleanup].  The
    unused [timestamp = Date.now()] is left out. *)
Definition executeCode_body (code language : jsstring)
  : M (list jsstring) Result :=
  let* executionId := randomBytesHex in
  let* startTime := hrtime in
  try_catch
    (let* prepared := prepare code language executionId in
     match prepared with
     | inl early => ret early
     | inr commandToRun =>
         let* result := run commandToRun startTime in
         let* filesToCleanup := get_local in
         cleanupFiles filesToCleanup ;;
         ret result
     end)
    (fun error =>
       let* filesToCleanup := get_local in
       (if (0 <? length filesToCleanup)%nat
        then cleanupFiles filesToCleanup else ret tt) ;;
       ret {| success := false;
              output := None;
              error := Some (message error);
              executionTime := Some 0 |}).

(** [executeCode(code, language)], awaited: [Throw] is a rejected
    promise. *)
Definition executeCode (code language : jsstring) (w : World)
  : Completion Result * World :=
  let '(c, _, w') := executeCode_body code language [] w in (c, w').

(** ** The test harness *)

(** "Modify code to use the test case input": the [switch] of
    [runTestCases]; [None] is the [default] branch. *)
Definition modifyCode {L} (code language : jsstring) (test : TestCase.t)
  : M L (option jsstring) :=
  match switch_language language with
  | Some JavaScript =>
      let* arg := lift (JSON_stringify (TestCase.input test)) in
      ret (Some (code ++ [10; 10]%N ++ lit "console.log(solution("
                   ++ arg ++ lit "));"))
  | Some Python =>
      let* arg := lift (JSON_stringify (TestCase.input test)) in
      ret (Some (code ++ [10; 10]%N ++ lit "print(solution("
                   ++ arg ++ lit "))"))
  | Some Java =>
      let* arg := lift (JSON_stringify (TestCase.input test)) in
      ret (Some (replace javaMainRe
                   (lit "public static void main(String[] args) { System.out.println(solution("
                      ++ arg ++ lit ")); }")
                   code))
  | Some Cpp =>
      let* arg := lift (JSON_stringify (TestCase.input test)) in
      ret (Some (replace cppMainRe
                   (lit "int main() { cout << solution("
                      ++ arg ++ lit ") << endl; return 0; }")
                   code))
  | None => ret None
  end.

(** One turn of the [for] loop; the locals are [results]. *)
Definition testBody (code language : jsstring) (test : TestCase.t)
  : M (list TestResult) unit :=
  try_catch
    (let* modifiedCode := modifyCode code language test in
     match modifiedCode with
     | None =>
         push [{| result :=
                    {| success := false;
                       output := None;
                       error := Some (lit "Unsupported language for test cases: "
                                        ++ language);
                       executionTime := None |};
                  testPassed := None;
                  expected := None;
                  test := test |}]
     | Some modifiedCode =>
         let* res := await (executeCode modifiedCode language) in
         if success res then
           let* out := match output res with
                       | Some o => ret o
                       | None => throw TypeError_trim
                       end in
           let normalizedOutput := trim out in
           let* str := lift (String_ (TestCase.output test)) in
           let normalizedExpected := trim str in
           push [{| result := res;
                    testPassed :=
                      Some (bool_decide (normalizedOutput = normalizedExpected));
                    expected := Some (TestCase.output test);
                    test := test |}]
         else
           push [{| result := res;
                    testPassed := None;
                    expected := None;
                    test := test |}]
     end)
    (fun error =>
       push [{| result :=
                  {| success := false;
                     output := None;
                     error := Some (message error);
                     executionTime := None |};
                testPassed := None;
                expected := None;
                test := test |}]).

(** [runTestCases(code, language, testCases)], awaited. *)
Definition runTestCases (code language : jsstring)
    (testCases : list (TestCase.t)) (w : World)
  : Completion (list TestResult) * World :=
  let '(c, results, w') :=
    forEach testCases (testBody code language) [] w in
  match c with
  | Normal _ => (Normal results, w')
  | Throw e => (Throw e, w')
  end.

End Engine.

(** * The grading of a submission in [server.js]

    The [submit-solution] handler runs the test cases of the problem and
    grades the submission from the array [runTestCases] returned. *)

Module Submission.

(** The object [result] of the handler. *)
Record t : Type := {
  success : bool;
  passedTests : nat;
  totalTests : nat;
  testResults : list TestResult;
  executionTime : Z
}.

End Submission.

(** [test.testPassed] where a condition is expected: an absent property
    counts as false. *)
Definition ToBoolean (v : option bool) : bool :=
  match v with
  | Some b => b
  | None => false
  end.

(** [test.executionTime || 0]: the right operand when the property is
    absent or zero. *)
Definition or_zero (v : option Z) : Z :=
  match v with
  | Some z => if z =? 0 then 0 else z
  | None => 0
  end.

(** "Calculate success rate". *)
Definition submissionResult (testResults : list TestResult) : Submission.t :=
  let passedTests :=
    length (List.filter (fun test => ToBoolean (testPassed test)) testResults) in
  let totalTests := length testResults in
  {| Submission.success := Nat.eqb passedTests totalTests;
     Submission.passedTests := passedTests;
     Submission.totalTests := totalTests;
     Submission.testResults := testResults;
     Submission.executionTime :=
       fold_left (fun sum test => sum + or_zero (executionTime (result test)))
         testResults 0 |}.

(** "Run test cases", then grade. *)
Definition gradeSubmission (env : Env) (code language : jsstring)
    (testCases : list TestCase.t) (w : World)
  : Completion Submission.t * World :=
  match runTestCases env code language testCases w with
  | (Normal testResults, w') => (Normal (submissionResult testResults), w')
  | (Throw e, w') => (Throw e, w')
  end.

(** * Vocabulary of the statements

    Names for the worlds, files and events that the properties below
    talk about.  The theorems tie each of them to [executeCode] and
    [runTestCases]. *)

(** What it means for a piece of text to be matched by an item, and for
    a pattern to match at the start of a text, independently of how the
    matcher searches. *)
Definition fits (it : item) (m : jsstring) : Prop :=
  match it with
  | Lit l => m = l
  | Star f => forallb f m = true
  | Plus f => m <> [] /\ forallb f m = true
  end.

Definition matches_at (p : list item) (s : jsstring)
    (pieces : list jsstring) (rest : jsstring) : Prop :=
  s = concat pieces ++ rest /\ Forall2 fits p pieces.

Section Vocabulary.

Variable env : Env.

(** The calls made by one turn of [cleanupFiles]: the deletion, and the
    console line when it threw. *)
Definition unlink_events (filePath : jsstring) (w : World) : list Event :=
  let failed e :=
    [EUnlink filePath (Some e);
     EConsoleError (lit "Failed to delete temp file " ++ filePath ++ lit ":") e] in
  match files w !! filePath with
  | None => failed (ENOENT filePath)
  | Some _ =>
      match unlinkError env filePath w with
      | Some e => failed e
      | None => [EUnlink filePath None]
      end
  end.

(** The world after one turn of [cleanupFiles]. *)
Definition unlink_attempt (filePath : jsstring) (w : World) : World :=
  let failed e :=
    record (EConsoleError
              (lit "Failed to delete temp file " ++ filePath ++ lit ":") e)
      (record (EUnlink filePath (Some e)) w) in
  match files w !! filePath with
  | None => failed (ENOENT filePath)
  | Some _ =>
      match unlinkError env filePath w with
      | Some e => failed e
      | None => unlinked filePath w
      end
  end.

(** The world after [cleanupFiles filePaths], and the calls it made. *)
Definition cleaned (filePaths : list jsstring) (w : World) : World :=
  fold_left (fun w p => unlink_attempt p w) filePaths w.

Fixpoint cleanup_events (filePaths : list jsstring) (w : World) : list Event :=
  match filePaths with
  | [] => []
  | p :: ps => unlink_events p w ++ cleanup_events ps (unlink_attempt p w)
  end.

(** The files and commands of a Java request, from the class name. *)
Definition javaSource (className : jsstring) : jsstring :=
  path_join env (className ++ lit ".java").

Definition javaClass (className : jsstring) : jsstring :=
  path_join env (className ++ lit ".class").

Definition javacCommand (className : jsstring) : jsstring :=
  lit "javac -d " ++ executionDir env ++ lit " " ++ javaSource className.

Definition javaCommand (className : jsstring) : jsstring :=
  lit "java -cp " ++ executionDir env ++ lit " " ++ className.

(** The files and the compile command of a C++ request, from the random
    identifier. *)
Definition cppSource (executionId : jsstring) : jsstring :=
  path_join env (executionId ++ lit ".cpp").

Definition cppBinary (executionId : jsstring) : jsstring :=
  path_join env executionId.

Definition gppCommand (executionId : jsstring) : jsstring :=
  lit "g++ " ++ cppSource executionId ++ lit " -o " ++ cppBinary executionId.

(** The source file, compile command, compiled file and run command of
    a request for a compiled language: Java with a public class, or
    C++. *)
Record CompiledPlan : Type := {
  cp_source : jsstring;
  cp_compile : jsstring;
  cp_output : jsstring;
  cp_run : jsstring
}.

Definition compiledPlan (code language : jsstring) (w : World)
  : option CompiledPlan :=
  match switch_language language with
  | Some Java =>
      match regex_exec publicClassRe code with
      | Some m =>
          Some {| cp_source := javaSource (group1 m);
                  cp_compile := javacCommand (group1 m);
                  cp_output := javaClass (group1 m);
                  cp_run := javaCommand (group1 m) |}
      | None => None
      end
  | Some Cpp =>
      let executionId := randomHex env (entropy w) in
      Some {| cp_source := cppSource executionId;
              cp_compile := gppCommand executionId;
              cp_output := cppBinary executionId;
              cp_run := cppBinary executionId |}
  | _ => None
  end.

(** The artifact set of a request: the source file and, for Java and
    C++, the compiled file. *)
Definition artifactSet (code language : jsstring) (w : World)
  : list jsstring :=
  let executionId := randomHex env (entropy w) in
  match switch_language language with
  | Some JavaScript => [path_join env (executionId ++ lit ".js")]
  | Some Python => [path_join env (executionId ++ lit ".py")]
  | Some Java =>
      match regex_exec publicClassRe code with
      | Some m => [javaSource (group1 m); javaClass (group1 m)]
      | None => []
      end
  | Some Cpp => [cppSource executionId; cppBinary executionId]
  | None => []
  end.

(** The calls a Java request may make once its source is written: no
    further write, deletions of the two files named after the class,
    the two commands built from the class name. *)
Definition java_call (className : jsstring) (ev : Event) : Prop :=
  match ev with
  | EWrite _ _ _ => False
  | EUnlink p _ => p = javaSource className \/ p = javaClass className
  | ESpawn c _ _ => c = javacCommand className \/ c = javaCommand className
  | EConsoleError _ _ => True
  end.

End Vocabulary.

(** The only calls of a cleanup are deletions of the listed files and
    console lines. *)
Definition cleanup_call (ps : list jsstring) (ev : Event) : Prop :=
  match ev with
  | EUnlink p _ => In p ps
  | EConsoleError _ _ => True
  | _ => False
  end.

(** A result is well formed when [output] is present exactly on success
    and [error] exactly on failure. *)
Definition well_formed (r : Result) : Prop :=
  (is_Some (output r) <-> success r = true) /\
  (is_Some (error r) <-> success r = false).

Definition supported_tags : list jsstring :=
  [lit "javascript"; lit "python"; lit "java"; lit "cpp"].


(** The entry-point pattern of the harness for a language, where it
    rewrites by substitution. *)
Definition mainPattern (language : jsstring) : option (list item) :=
  match switch_language language with
  | Some Java => Some javaMainRe
  | Some Cpp => Some cppMainRe
  | _ => None
  end.


(** Whether a value holds a [BigInt] anywhere; values that arrive as
    JSON hold none. *)
Fixpoint has_bigint (v : JSValue) : bool :=
  match v with
  | VBigInt _ => true
  | VArr items =>
      (fix any (l : list JSValue) : bool :=
         match l with
         | [] => false
         | x :: l' => has_bigint x || any l'
         end) items
  | VObj props =>
      (fix any (l : list (jsstring * JSValue)) : bool :=
         match l with
         | [] => false
         | (_, x) :: l' => has_bigint x || any l'
         end) props
  | _ => false
  end.

(** What the harness records for one case. *)
Definition case_outcome (tr : TestResult) : Prop :=
  (success (result tr) = true ->
   exists out str,
     output (result tr) = Some out /\
     String_ (TestCase.output (test tr)) = Normal str /\
     testPassed tr = Some (bool_decide (trim out = trim str)) /\
     expected tr = Some (TestCase.output (test tr))) /\
  (success (result tr) = false -> testPassed tr = None).

(** Milliseconds, rounded as [executeCode] does, of a duration in
    nanoseconds. *)
Definition round_ns (d : Z) : Z :=
  round_ms (d / 1000000000, d mod 1000000000).

(** The same machine with other deletion failures. *)
Definition with_unlinkError (f : jsstring -> World -> option Exn) (env : Env)
  : Env :=
  {| executionDir := executionDir env;
     randomHex := randomHex env;
     writeError := writeError env;
     writeResidue := writeResidue env;
     writeLatency := writeLatency env;
     unlinkError := f;
     spawnError := spawnError env;
     child := child env |}.

(** A machine on which nothing throws. *)
Definition no_internal_exception (env : Env) : Prop :=
  (forall p w, writeError env p w = None) /\
  (forall c w, spawnError env c w = None).

(** ** Example machines *)

Definition starts_with (p s : jsstring) : bool :=
  match strip_prefix p s with Some _ => true | None => false end.

Definition exampleId (n : nat) : jsstring :=
  lit "5f2b7c1e9a0d4c3e8b6f1a2d3c4e5f6" ++ [hexdigit (N.of_nat n mod 16)].

(** No write, deletion or spawn fails; writing takes no time. *)
Definition quietEnv (child : jsstring -> Z -> World -> ProcOutcome) : Env :=
  {| executionDir := lit "/app/code-executions";
     randomHex := exampleId;
     writeError := fun _ _ => None;
     writeResidue := fun _ _ _ => None;
     writeLatency := 0;
     unlinkError := fun _ _ => None;
     spawnError := fun _ _ => None;
     child := child |}.

Definition startWorld : World :=
  {| files := ∅; clock := 0; entropy := 0; trace := [] |}.

Definition exits_cleanly (out : jsstring) (ns : Z) : ProcOutcome :=
  {| p_error := None; p_stdout := out; p_stderr := []; p_elapsed := ns;
     p_effect := fun f => f |}.

(** Every process prints 42 after one second. *)
Definition printsAnswer (_ : jsstring) (_ : Z) (_ : World) : ProcOutcome :=
  exits_cleanly (lit "42" ++ [10%N]) 1000000000.

(** A working toolchain: [g++] takes two seconds and leaves the binary
    of the first request, [javac] leaves [Main.class], and every program
    prints 42 after one second. *)
Definition toolchain (cmd : jsstring) (_ : Z) (_ : World) : ProcOutcome :=
  if starts_with (lit "g++ ") cmd then
    {| p_error := None; p_stdout := []; p_stderr := [];
       p_elapsed := 2000000000;
       p_effect := <[lit "/app/code-executions/" ++ exampleId 0 := lit "ELF"]> |}
  else if starts_with (lit "javac ") cmd then
    {| p_error := None; p_stdout := []; p_stderr := [];
       p_elapsed := 2000000000;
       p_effect := <[lit "/app/code-executions/Main.class" := lit "CAFEBABE"]> |}
  else exits_cleanly (lit "42" ++ [10%N]) 1000000000.

(** [g++] is killed by the deadline, having printed nothing. *)
Definition hungCompiler (cmd : jsstring) (timeout : Z) (_ : World)
  : ProcOutcome :=
  if starts_with (lit "g++ ") cmd then
    {| p_error := Some {| err_killed := true;
                          err_signal := Some (lit "SIGTERM");
                          err_message := lit "Command failed: " ++ cmd ++ [10%N] |};
       p_stdout := [];
       p_stderr := [];
       p_elapsed := timeout * 1000000;
       p_effect := fun f => f |}
  else exits_cleanly [] 1000000.

(** [g++] rejects the program. *)
Definition rejectingCompiler (cmd : jsstring) (_ : Z) (_ : World)
  : ProcOutcome :=
  if starts_with (lit "g++ ") cmd then
    {| p_error := Some {| err_killed := false;
                          err_signal := None;
                          err_message := lit "Command failed: " ++ cmd |};
       p_stdout := [];
       p_stderr := lit "error: expected ';' before '}' token";
       p_elapsed := 300000000;
       p_effect := fun f => f |}
  else exits_cleanly [] 1000000.

(** Deletions are refused. *)
Definition EPERM : Exn := {| message := lit "EPERM: operation not permitted, unlink" |}.

Definition lockedEnv : Env :=
  with_unlinkError (fun _ _ => Some EPERM) (quietEnv printsAnswer).

(** ** Example programs *)

Definition jsProgram : jsstring := lit "console.log(42)".

Definition cppProgram : jsstring := lit "int main() { return 0; }".

Definition javaProgram : jsstring :=
  lit "public class Main { public static void main(String[] a) { } }".

Definition javaFragment : jsstring := lit "class Main { }".



Definition answerCase : TestCase.t :=
  {| TestCase.input := VNum (lit "1"); TestCase.output := VNum (lit "42") |}.

Definition bigIntCase : TestCase.t :=
  {| TestCase.input := VBigInt 1; TestCase.output := VNum (lit "42") |}.


(** * Further vocabulary *)

(** The paths of the deletions, the commands and deadlines of the
    processes, and the paths and contents of the writes in a trace. *)
Fixpoint unlink_targets (evs : list Event) : list jsstring :=
  match evs with
  | [] => []
  | EUnlink p _ :: rest => p :: unlink_targets rest
  | _ :: rest => unlink_targets rest
  end.

Fixpoint failed_unlinks (evs : list Event) : list jsstring :=
  match evs with
  | [] => []
  | EUnlink p (Some _) :: rest => p :: failed_unlinks rest
  | _ :: rest => failed_unlinks rest
  end.

Fixpoint spawn_calls (evs : list Event) : list (jsstring * Z) :=
  match evs with
  | [] => []
  | ESpawn c t _ :: rest => (c, t) :: spawn_calls rest
  | _ :: rest => spawn_calls rest
  end.

Fixpoint write_calls (evs : list Event) : list (jsstring * jsstring) :=
  match evs with
  | [] => []
  | EWrite p d _ :: rest => (p, d) :: write_calls rest
  | _ :: rest => write_calls rest
  end.

Fixpoint console_lines (evs : list Event) : list jsstring :=
  match evs with
  | [] => []
  | EConsoleError l _ :: rest => l :: console_lines rest
  | _ :: rest => console_lines rest
  end.

Section Vocabulary2.

Variable env : Env.

(** The source file and the run command of a request for a script
    language. *)
Definition scriptPlan (language : jsstring) (w : World)
  : option (jsstring * jsstring) :=
  let executionId := randomHex env (entropy w) in
  match switch_language language with
  | Some JavaScript =>
      let filePath := path_join env (executionId ++ lit ".js") in
      Some (filePath, lit "node " ++ filePath)
  | Some Python =>
      let filePath := path_join env (executionId ++ lit ".py") in
      Some (filePath, lit "python " ++ filePath)
  | _ => None
  end.

(** The stage at which a request is ready to run: the files handed to
    the final cleanup, the command to run and the world at that point.
    A script is ready once its source is written; a compiled language
    once its source is written and compiled without error. *)
Definition runStage (code language : jsstring) (w : World)
  : option (list jsstring * jsstring * World) :=
  match scriptPlan language w with
  | Some (filePath, commandToRun) =>
      match writeError env filePath (next_entropy w) with
      | Some _ => None
      | None => Some ([filePath], commandToRun,
                      wrote env filePath code (next_entropy w))
      end
  | None =>
      match compiledPlan env code language w with
      | None => None
      | Some pl =>
          match writeError env (cp_source pl) (next_entropy w) with
          | Some _ => None
          | None =>
              let w1 := wrote env (cp_source pl) code (next_entropy w) in
              match spawnError env (cp_compile pl) w1 with
              | Some _ => None
              | None =>
                  match p_error (child env (cp_compile pl)
                                   MAX_EXECUTION_TIME w1) with
                  | Some _ => None
                  | None =>
                      Some ([cp_source pl; cp_output pl], cp_run pl,
                            ran env (cp_compile pl) MAX_EXECUTION_TIME w1)
                  end
              end
          end
      end
  end.

(** The source file a request writes, if it gets that far. *)
Definition sourceFile (code language : jsstring) (w : World)
  : option jsstring :=
  match scriptPlan language w with
  | Some (filePath, _) => Some filePath
  | None => option_map cp_source (compiledPlan env code language w)
  end.

End Vocabulary2.

(** The same machine with another source of random identifiers. *)
Definition with_randomHex (h : nat -> jsstring) (env : Env) : Env :=
  {| executionDir := executionDir env;
     randomHex := h;
     writeError := writeError env;
     writeResidue := writeResidue env;
     writeLatency := writeLatency env;
     unlinkError := unlinkError env;
     spawnError := spawnError env;
     child := child env |}.

(** Child processes that leave the disk as they found it. *)
Definition children_leave_disk (env : Env) : Prop :=
  forall cmd timeout w f, p_effect (child env cmd timeout w) f = f.

(** The error a run-phase callback reports for [exec]'s error [e]. *)
Definition killed_by_deadline (e : ExecError) : bool :=
  err_killed e && bool_decide (err_signal e = Some (lit "SIGTERM")).

(** The text does not go on with a character of the class [f]. *)
Definition stops (f : N -> bool) (rest : jsstring) : Prop :=
  match rest with
  | [] => True
  | c :: _ => f c = false
  end.

(** ** The harness *)

(** What the harness records for a case when the language has no
    rewrite rule, and when handling the case threw [e]. *)
Definition unsupportedCase (language : jsstring) (t : TestCase.t) : TestResult :=
  {| result := {| success := false;
                  output := None;
                  error := Some (lit "Unsupported language for test cases: "
                                   ++ language);
                  executionTime := None |};
     testPassed := None;
     expected := None;
     test := t |}.

Definition thrownCase (e : Exn) (t : TestCase.t) : TestResult :=
  {| result := {| success := false;
                  output := None;
                  error := Some (message e);
                  executionTime := None |};
     testPassed := None;
     expected := None;
     test := t |}.

(** What the harness records for a case once [executeCode] has returned
    [r]: a failed execution as it is; a successful one with the verdict
    of the comparison, unless converting the expected value to a string
    throws, which the [catch] block records as the failure of the
    case. *)
Definition recorded (r : Result) (t : TestCase.t) : TestResult :=
  if success r then
    match output r, String_ (TestCase.output t) with
    | Some out, Normal str =>
        {| result := r;
           testPassed := Some (bool_decide (trim out = trim str));
           expected := Some (TestCase.output t);
           test := t |}
    | Some _, Throw e => thrownCase e t
    | None, _ => thrownCase TypeError_trim t
    end
  else {| result := r; testPassed := None; expected := None; test := t |}.

(** An expected value that [String] cannot convert. *)
Definition toStringCase : TestCase.t :=
  {| TestCase.input := VNum (lit "1");
     TestCase.output := VObj [(lit "toString", VNum (lit "1"))] |}.

(** The text has no dollar sign. *)
Definition dollar_free (s : jsstring) : Prop :=
  forallb (fun c => negb (c =? 36)%N) s = true.

(** The entry block the harness generates for a Java or C++ case, around
    the serialized input. *)
Definition generatedMain (language arg : jsstring) : jsstring :=
  match switch_language language with
  | Some Java =>
      lit "public static void main(String[] args) { System.out.println(solution("
        ++ arg ++ lit ")); }"
  | Some Cpp =>
      lit "int main() { cout << solution(" ++ arg ++ lit ") << endl; return 0; }"
  | _ => []
  end.

(** What [String.prototype.replace] puts in place of a dollar sign
    followed by [d] in the replacement text, when that is special. *)
Definition dollar_expansion (m : rmatch) (d : N) : option jsstring :=
  if (d =? 36)%N then Some [36%N]
  else if (d =? 38)%N then Some (m_text m)
  else if (d =? 96)%N then Some (m_before m)
  else if (d =? 39)%N then Some (m_after m)
  else None.

Definition dollarCase : TestCase.t :=
  {| TestCase.input := VStr (lit "US$$"); TestCase.output := VNum (lit "42") |}.


(** ** Further example machines *)

Definition ENOSPC : Exn :=
  {| message := lit "ENOSPC: no space left on device, write" |}.

Definition EAGAIN : Exn := {| message := lit "spawn EAGAIN" |}.

(** The disk is full: a file is created, but nothing can be written to
    it. *)
Definition fullDiskEnv : Env :=
  {| executionDir := lit "/app/code-executions";
     randomHex := exampleId;
     writeError := fun _ _ => Some ENOSPC;
     writeResidue := fun _ _ _ => Some [];
     writeLatency := 0;
     unlinkError := fun _ _ => None;
     spawnError := fun _ _ => None;
     child := printsAnswer |}.

(** No process can be started. *)
Definition noProcessEnv : Env :=
  {| executionDir := lit "/app/code-executions";
     randomHex := exampleId;
     writeError := fun _ _ => None;
     writeResidue := fun _ _ _ => None;
     writeLatency := 0;
     unlinkError := fun _ _ => None;
     spawnError := fun _ _ => Some EAGAIN;
     child := printsAnswer |}.

(** ** The grading *)

(** A case passed: it ran to a clean exit and printed the string form
    of the expected value, white space at both ends apart. *)
Definition passed (tr : TestResult) : Prop :=
  exists out str,
    success (result tr) = true /\
    output (result tr) = Some out /\
    String_ (TestCase.output (test tr)) = Normal str /\
    trim out = trim str.

(** A clock that does not run backwards: writing a file and running a
    process take no negative time. *)
Definition monotone_clock (env : Env) : Prop :=
  0 <= writeLatency env /\
  forall cmd timeout w, 0 <= p_elapsed (child env cmd timeout w).

(** * Properties *)

(** ** The matcher against the meaning of the patterns *)

Lemma strip_prefix_sound (l s rest : jsstring) :
  strip_prefix l s = Some rest -> s = l ++ rest.
Proof.
  revert s. induction l as [|a l IH]; intros [|b s]; cbn [strip_prefix];
    try discriminate.
  - now intros [= <-].
  - now intros [= <-].
  - destruct (N.eqb_spec a b) as [<-|]; [|discriminate].
    intros H. cbn [app]. f_equal. now apply IH.
Qed.

Lemma strip_prefix_app (l rest : jsstring) :
  strip_prefix l (l ++ rest) = Some rest.
Proof.
  induction l as [|a l IH]; cbn [strip_prefix app]; [now destruct rest|].
  now rewrite N.eqb_refl.
Qed.

Lemma greedy_sound (f : N -> bool)
    (k : jsstring -> option (list jsstring * jsstring)) (s : jsstring)
    (ms : list jsstring) (rest : jsstring) :
  greedy f k s = Some (ms, rest) ->
  exists m ms' s',
    ms = m :: ms' /\ forallb f m = true /\ s = m ++ s' /\
    k s' = Some (ms', rest).
Proof.
  revert ms rest. induction s as [|c s IH]; intros ms rest; cbn [greedy].
  - destruct (k []) as [[ms' r]|] eqn:E; cbn [push_piece]; [|discriminate].
    intros [= <- <-]. exists [], ms', []. auto.
  - assert (Hstop : push_piece [] (k (c :: s)) = Some (ms, rest) ->
             exists m ms' s',
               ms = m :: ms' /\ forallb f m = true /\ c :: s = m ++ s' /\
               k s' = Some (ms', rest)).
    { destruct (k (c :: s)) as [[ms' r]|] eqn:E; cbn [push_piece];
        [|discriminate].
      intros [= <- <-]. exists [], ms', (c :: s). auto. }
    destruct (f c) eqn:Hc; [|exact Hstop].
    destruct (greedy f k s) as [[[|m0 ms0] r0]|] eqn:G; cbn [cons_first];
      try exact Hstop.
    intros [= <- <-].
    destruct (IH _ _ eq_refl) as (m & ms' & s' & [= -> ->] & Hm & -> & Hk).
    exists (c :: m), ms', s'. cbn [forallb app]. rewrite Hc, Hm. auto.
Qed.

Lemma greedy_fallback (f : N -> bool)
    (k : jsstring -> option (list jsstring * jsstring)) (s : jsstring) :
  is_Some (k s) -> is_Some (greedy f k s).
Proof.
  intros [[ms r] Hk]. destruct s as [|c s]; cbn [greedy]; rewrite Hk;
    cbn [push_piece]; [eauto|].
  destruct (f c); [|eauto].
  destruct (cons_first c (greedy f k s)); eauto.
Qed.

Lemma greedy_complete (f : N -> bool)
    (k : jsstring -> option (list jsstring * jsstring)) (m s : jsstring) :
  forallb f m = true -> is_Some (k s) -> is_Some (greedy f k (m ++ s)).
Proof.
  intros Hm Hk. induction m as [|c m IH]; [now apply greedy_fallback|].
  cbn [forallb] in Hm. apply andb_prop in Hm as [Hc Hm].
  cbn [app greedy]. rewrite Hc.
  destruct (IH Hm) as [[ms r] G]. rewrite G.
  destruct (greedy_sound _ _ _ _ _ G) as (m0 & ms' & _ & -> & _).
  cbn [cons_first]. eauto.
Qed.

(** What the matcher returns is a match. *)
Lemma match_here_sound (p : list item) (s : jsstring)
    (ms : list jsstring) (rest : jsstring) :
  match_here p s = Some (ms, rest) -> matches_at p s ms rest.
Proof.
  unfold matches_at. revert s ms rest.
  induction p as [|[l|f|f] p IH]; intros s ms rest; cbn [match_here].
  - intros [= <- <-]. split; [reflexivity|constructor].
  - destruct (strip_prefix l s) as [r|] eqn:E; [|discriminate].
    apply strip_prefix_sound in E as ->.
    destruct (match_here p r) as [[ms' r']|] eqn:H; cbn [push_piece];
      [|discriminate].
    intros [= <- <-]. destruct (IH _ _ _ H) as [-> HF].
    split; [cbn [concat]; now rewrite <- app_assoc|].
    constructor; [reflexivity|exact HF].
  - intros G.
    destruct (greedy_sound _ _ _ _ _ G) as (m & ms' & s' & -> & Hm & -> & Hk).
    destruct (IH _ _ _ Hk) as [-> HF].
    split; [cbn [concat]; now rewrite <- app_assoc|].
    constructor; [exact Hm|exact HF].
  - destruct s as [|c s]; [discriminate|].
    destruct (f c) eqn:Hc; [|discriminate].
    destruct (greedy f (match_here p) s) as [[[|m0 ms0] r0]|] eqn:G;
      cbn [cons_first]; try discriminate.
    intros [= <- <-].
    destruct (greedy_sound _ _ _ _ _ G) as (m & ms' & s' & [= -> ->] & Hm & -> & Hk).
    destruct (IH _ _ _ Hk) as [-> HF].
    split; [cbn [concat app]; now rewrite <- app_assoc|].
    constructor; [|exact HF].
    split; [discriminate|]. cbn [forallb]. now rewrite Hc, Hm.
Qed.

(** Where there is a match, the matcher finds one. *)
Lemma match_here_complete (p : list item) (s : jsstring)
    (ms : list jsstring) (rest : jsstring) :
  matches_at p s ms rest -> is_Some (match_here p s).
Proof.
  unfold matches_at. intros [-> HF]. induction HF as [|it m p ms Hfit HF IH];
    cbn [match_here concat].
  - eauto.
  - rewrite <- app_assoc. destruct it as [l|f|f]; cbn [fits] in Hfit.
    + subst m. rewrite strip_prefix_app.
      destruct IH as [[ms' r] ->]. cbn [push_piece]. eauto.
    + now apply greedy_complete.
    + destruct Hfit as [Hne Hm]. destruct m as [|c m]; [congruence|].
      cbn [forallb] in Hm. apply andb_prop in Hm as [Hc Hm].
      cbn [app]. rewrite Hc.
      destruct (greedy_complete f (match_here p) m (concat ms ++ rest) Hm IH)
        as [[ms' r] G].
      rewrite G. destruct (greedy_sound _ _ _ _ _ G) as (m0 & ms0 & _ & -> & _).
      cbn [cons_first]. eauto.
Qed.

Lemma search_from_sound (p : list item) (before s : jsstring) (m : rmatch) :
  search_from p before s = Some m ->
  before ++ s = m_before m ++ m_text m ++ m_after m /\
  Forall2 fits p (m_pieces m).
Proof.
  revert before. induction s as [|c s IH]; intros before; cbn [search_from].
  - destruct (match_here p []) as [[ms rest]|] eqn:E; [|discriminate].
    intros [= <-]. destruct (match_here_sound _ _ _ _ E) as [Hs HF].
    cbn [m_before m_pieces m_after m_text]. unfold m_text. cbn [m_pieces].
    now rewrite Hs.
  - destruct (match_here p (c :: s)) as [[ms rest]|] eqn:E.
    + intros [= <-]. destruct (match_here_sound _ _ _ _ E) as [Hs HF].
      unfold m_text. cbn [m_before m_pieces m_after]. now rewrite Hs.
    + intros H. destruct (IH _ H) as [Hs HF]. split; [|exact HF].
      rewrite <- Hs, <- app_assoc. reflexivity.
Qed.

Lemma search_from_complete (p : list item) (before pre s : jsstring)
    (ms : list jsstring) (rest : jsstring) :
  matches_at p s ms rest -> is_Some (search_from p before (pre ++ s)).
Proof.
  intros Hm. revert before. induction pre as [|c pre IH]; intros before.
  - cbn [app]. destruct (match_here_complete _ _ _ _ Hm) as [[ms' r] E].
    destruct s; cbn [search_from]; rewrite E; eauto.
  - cbn [app search_from].
    destruct (match_here p (c :: pre ++ s)) as [[ms' r]|]; [eauto|apply IH].
Qed.

(** [regex_exec] returns a match of the pattern inside the text... *)
Lemma regex_exec_sound (p : list item) (s : jsstring) (m : rmatch) :
  regex_exec p s = Some m ->
  s = m_before m ++ m_text m ++ m_after m /\ Forall2 fits p (m_pieces m).
Proof. intros H. apply (search_from_sound p [] s m H). Qed.

(** ... and returns none exactly when the pattern matches nowhere. *)
Lemma regex_exec_None_iff (p : list item) (s : jsstring) :
  regex_exec p s = None <->
  forall pre pieces rest, s = pre ++ concat pieces ++ rest ->
    ~ Forall2 fits p pieces.
Proof.
  split.
  - intros Hnone pre pieces rest -> HF.
    destruct (search_from_complete p [] pre (concat pieces ++ rest) pieces rest)
      as [m Hm]; [split; [reflexivity|exact HF]|].
    unfold regex_exec in Hnone. congruence.
  - intros Hno. destruct (regex_exec p s) as [m|] eqn:E; [|reflexivity].
    destruct (regex_exec_sound _ _ _ E) as [Hs HF].
    exfalso. apply (Hno (m_before m) (m_pieces m) (m_after m)); assumption.
Qed.

(** The class name captured from a Java source is a non-empty word. *)
Lemma group1_is_word (code : jsstring) (m : rmatch) :
  regex_exec publicClassRe code = Some m ->
  group1 m <> [] /\ forallb is_word (group1 m) = true.
Proof.
  intros H. destruct (regex_exec_sound _ _ _ H) as [_ HF].
  unfold group1. unfold publicClassRe in HF.
  repeat match goal with
         | H : Forall2 _ (_ :: _) _ |- _ => inversion H; subst; clear H
         | H : Forall2 _ [] _ |- _ => inversion H; subst; clear H
         end.
  cbn [nth]. assumption.
Qed.

(** The match returned is the leftmost one. *)
Lemma search_from_leftmost (p : list item) (before s : jsstring) (m : rmatch) :
  search_from p before s = Some m ->
  forall pre s' pieces rest,
    s = pre ++ s' -> matches_at p s' pieces rest ->
    (length (m_before m) <= length before + length pre)%nat.
Proof.
  revert before. induction s as [|c s IH];
    intros before Hm pre s' pieces rest Hs Hat; cbn [search_from] in Hm.
  - destruct (match_here p []) as [[ms r]|]; [|discriminate].
    injection Hm as <-. cbn [m_before]. lia.
  - destruct (match_here p (c :: s)) as [[ms r]|] eqn:E.
    + injection Hm as <-. cbn [m_before]. lia.
    + destruct pre as [|c' pre]; cbn [app] in Hs.
      * subst s'. destruct (match_here_complete _ _ _ _ Hat) as [x Hx].
        congruence.
      * injection Hs as <- ->.
        specialize (IH (before ++ [c]) Hm pre s' pieces rest eq_refl Hat).
        rewrite length_app in IH. cbn [length] in *. lia.
Qed.

Lemma regex_exec_leftmost (p : list item) (s : jsstring) (m : rmatch) :
  regex_exec p s = Some m ->
  forall pre pieces rest,
    s = pre ++ concat pieces ++ rest -> Forall2 fits p pieces ->
    (length (m_before m) <= length pre)%nat.
Proof.
  intros Hm pre pieces rest Hs HF.
  apply (search_from_leftmost p [] s m Hm pre (concat pieces ++ rest)
           pieces rest Hs).
  split; [reflexivity|exact HF].
Qed.

(** *** The class name of a Java source *)

Lemma greedy_end_stops (f : N -> bool) (s : jsstring)
    (ms : list jsstring) (rest : jsstring) :
  greedy f (match_here []) s = Some (ms, rest) -> stops f rest.
Proof.
  revert ms rest. induction s as [|c s IH]; intros ms rest; cbn [greedy].
  - cbn [match_here push_piece]. intros [= <- <-]. exact I.
  - destruct (f c) eqn:Hc.
    + destruct (greedy f (match_here []) s) as [[[|m0 ms0] r0]|] eqn:G;
        cbn [cons_first].
      * destruct (greedy_sound _ _ _ _ _ G) as (? & ? & ? & [=] & _).
      * intros [= <- <-]. eapply IH. reflexivity.
      * destruct (greedy_fallback f (match_here []) s) as [x Hx];
          [cbn [match_here]; eauto|congruence].
    + cbn [match_here push_piece]. intros [= <- <-]. exact Hc.
Qed.

Lemma match_here_last_stops (p : list item) (f : N -> bool) (s : jsstring)
    (ms : list jsstring) (rest : jsstring) :
  match_here (p ++ [Plus f]) s = Some (ms, rest) -> stops f rest.
Proof.
  revert s ms rest. induction p as [|[l|g|g] p IH]; intros s ms rest;
    cbn [app match_here].
  - change (fun s0 : jsstring => Some (@nil jsstring, s0)) with (match_here []).
    destruct s as [|c s]; [discriminate|].
    destruct (f c); [|discriminate].
    destruct (greedy f (match_here []) s) as [[[|m0 ms0] r0]|] eqn:G;
      cbn [cons_first]; try discriminate.
    intros Heq; inversion Heq; subst; clear Heq. eapply greedy_end_stops. exact G.
  - destruct (strip_prefix l s) as [r|]; [|discriminate].
    destruct (match_here (p ++ [Plus f]) r) as [[ms' r']|] eqn:E;
      cbn [push_piece]; [|discriminate].
    intros Heq; inversion Heq; subst; clear Heq. eapply IH. exact E.
  - intros G.
    destruct (greedy_sound _ _ _ _ _ G) as (? & ? & s' & _ & _ & _ & Hk).
    eapply IH. exact Hk.
  - destruct s as [|c s]; [discriminate|].
    destruct (g c); [|discriminate].
    destruct (greedy g (match_here (p ++ [Plus f])) s)
      as [[[|m0 ms0] r0]|] eqn:G; cbn [cons_first]; try discriminate.
    intros Heq; inversion Heq; subst; clear Heq.
    destruct (greedy_sound _ _ _ _ _ G) as (? & ? & s' & _ & _ & _ & Hk).
    eapply IH. exact Hk.
Qed.

Lemma search_from_match_here (p : list item) (before s : jsstring) (m : rmatch) :
  search_from p before s = Some m ->
  exists s', match_here p s' = Some (m_pieces m, m_after m).
Proof.
  revert before. induction s as [|c s IH]; intros before; cbn [search_from].
  - destruct (match_here p []) as [[ms rest]|] eqn:E; [|discriminate].
    intros [= <-]. eauto.
  - destruct (match_here p (c :: s)) as [[ms rest]|] eqn:E.
    + intros [= <-]. eauto.
    + apply IH.
Qed.

(** The capture of [(\w+)], read off the text. *)
Lemma class_name_capture (code : jsstring) (m : rmatch) :
  regex_exec publicClassRe code = Some m ->
  exists ws1 ws2,
    code = m_before m ++ lit "public" ++ ws1 ++ lit "class" ++ ws2
             ++ group1 m ++ m_after m /\
    ws1 <> [] /\ forallb is_space ws1 = true /\
    ws2 <> [] /\ forallb is_space ws2 = true /\
    group1 m <> [] /\ forallb is_word (group1 m) = true /\
    stops is_word (m_after m) /\
    (forall c, In c (group1 m) -> c <> 47%N /\ c <> 92%N /\ c <> 46%N).
Proof.
  intros H. destruct (regex_exec_sound _ _ _ H) as [Hcode HF].
  destruct (search_from_match_here _ _ _ _ H) as [s' Hs'].
  unfold m_text in Hcode. unfold group1. revert Hcode Hs'.
  destruct (m_pieces m) as [|p1 [|ws1 [|p3 [|ws2 [|name [|]]]]]] eqn:Hp;
    unfold publicClassRe in HF;
    repeat match goal with
           | H : Forall2 _ _ _ |- _ => inversion H; subst; clear H
           end.
  intros Hcode Hs'. cbn [fits] in *.
  repeat match goal with Hl : ?x = lit _ |- _ => subst x end.
  exists ws1, ws2. cbn [nth concat] in *.
  repeat match goal with H : _ /\ _ |- _ => destruct H end.
  rewrite <- !app_assoc in Hcode.
  change ([] ++ m_after m) with (m_after m) in Hcode.
  repeat (split; [assumption|]).
  split.
  - apply (match_here_last_stops
             [Lit (lit "public"); Plus is_space; Lit (lit "class"); Plus is_space]
             is_word s' _ _ Hs').
  - intros c Hc.
    match goal with
    | Hw : forallb is_word name = true |- _ =>
        rewrite forallb_forall in Hw; specialize (Hw c Hc)
    end.
    repeat split; intros ->; discriminate.
Qed.

(** A [main] with a well-formed header is matched as soon as some
    closing brace follows its opening brace, whatever else its body
    holds: [body] is the text up to the first closing brace and may
    contain opening braces. *)
Lemma cpp_main_block_matches (pre args ws body post : jsstring) :
  forallb (not_char 41) args = true ->
  forallb is_space ws = true ->
  forallb (not_char 125) body = true ->
  is_Some (regex_exec cppMainRe
             (pre ++ lit "int main(" ++ args ++ lit ")" ++ ws ++ lit "{"
                  ++ body ++ lit "}" ++ post)).
Proof.
  intros Ha Hw Hb. unfold regex_exec.
  apply (search_from_complete cppMainRe [] pre _
           [lit "int main("; args; lit ")"; ws; lit "{"; body; lit "}"] post).
  split.
  - cbn [concat]. rewrite <- !app_assoc. reflexivity.
  - unfold cppMainRe. repeat constructor; assumption.
Qed.

Lemma java_main_block_matches (pre args ws body post : jsstring) :
  forallb (not_char 41) args = true ->
  forallb is_space ws = true ->
  forallb (not_char 125) body = true ->
  is_Some (regex_exec javaMainRe
             (pre ++ lit "public static void main(" ++ args ++ lit ")" ++ ws
                  ++ lit "{" ++ body ++ lit "}" ++ post)).
Proof.
  intros Ha Hw Hb. unfold regex_exec.
  apply (search_from_complete javaMainRe [] pre _
           [lit "public static void main("; args; lit ")"; ws; lit "{"; body;
            lit "}"] post).
  split.
  - cbn [concat]. rewrite <- !app_assoc. reflexivity.
  - unfold javaMainRe. repeat constructor; assumption.
Qed.

(** ** What [cleanupFiles] does *)

Section CleanupFacts.

Variable env : Env.

Lemma cleanupFiles_eq {L} (filePaths : list jsstring) (l : L) (w : World) :
  cleanupFiles env filePaths l w = (Normal tt, l, cleaned env filePaths w).
Proof.
  revert w. induction filePaths as [|p ps IH]; intros w; [reflexivity|].
  unfold cleanupFiles in *. cbn [forEach]. unfold bind at 1.
  unfold cleaned; cbn [fold_left]. fold (cleaned env ps (unlink_attempt env p w)).
  replace (try_catch _ _ l w) with (Normal tt, l, unlink_attempt env p w).
  - apply IH.
  - unfold try_catch, unlinkSync, unlink_attempt, bind, get_world, throw,
      modify_world, console_error.
    destruct (files w !! p); [destruct (unlinkError env p w)|]; reflexivity.
Qed.

Lemma trace_unlink_attempt (p : jsstring) (w : World) :
  trace (unlink_attempt env p w) = trace w ++ unlink_events env p w.
Proof.
  unfold unlink_attempt, unlink_events.
  destruct (files w !! p); [destruct (unlinkError env p w)|];
    cbn [trace record unlinked set_files]; rewrite <- ?app_assoc; reflexivity.
Qed.

Lemma trace_cleaned (ps : list jsstring) (w : World) :
  trace (cleaned env ps w) = trace w ++ cleanup_events env ps w.
Proof.
  revert w. induction ps as [|p ps IH]; intros w; cbn [cleanup_events].
  - symmetry. apply app_nil_r.
  - unfold cleaned in *. cbn [fold_left]. rewrite IH, trace_unlink_attempt.
    rewrite <- app_assoc. reflexivity.
Qed.

Lemma clock_cleaned (ps : list jsstring) (w : World) :
  clock (cleaned env ps w) = clock w.
Proof.
  revert w. induction ps as [|p ps IH]; intros w; [reflexivity|].
  unfold cleaned in *. cbn [fold_left]. rewrite IH.
  unfold unlink_attempt.
  destruct (files w !! p); [destruct (unlinkError env p w)|]; reflexivity.
Qed.

Lemma unlink_events_calls (p : jsstring) (w : World) :
  Forall (cleanup_call [p]) (unlink_events env p w).
Proof.
  unfold unlink_events.
  destruct (files w !! p); [destruct (unlinkError env p w)|];
    repeat constructor.
Qed.

Lemma cleanup_call_mono (ps qs : list jsstring) (ev : Event) :
  (forall p, In p ps -> In p qs) -> cleanup_call ps ev -> cleanup_call qs ev.
Proof. destruct ev; cbn; auto. Qed.

Lemma cleanup_events_calls (ps : list jsstring) (w : World) :
  Forall (cleanup_call ps) (cleanup_events env ps w).
Proof.
  revert w. induction ps as [|p ps IH]; intros w; cbn [cleanup_events].
  - constructor.
  - apply Forall_app. split.
    + eapply List.Forall_impl; [|apply unlink_events_calls].
      intros ev. apply cleanup_call_mono. intros q [->|[]]. now left.
    + eapply List.Forall_impl; [|apply IH].
      intros ev. apply cleanup_call_mono. intros q Hq. now right.
Qed.

Lemma unlink_attempt_absent (p q : jsstring) (w : World) :
  files w !! q = None -> files (unlink_attempt env p w) !! q = None.
Proof.
  intros Hq. unfold unlink_attempt.
  destruct (files w !! p); [destruct (unlinkError env p w)|];
    cbn [files record unlinked set_files]; try exact Hq.
  destruct (decide (p = q)) as [->|Hne].
  - apply lookup_delete_eq.
  - rewrite lookup_delete_ne by exact Hne. exact Hq.
Qed.

Lemma cleaned_absent (ps : list jsstring) (q : jsstring) (w : World) :
  files w !! q = None -> files (cleaned env ps w) !! q = None.
Proof.
  revert w. induction ps as [|p ps IH]; intros w Hq; [exact Hq|].
  unfold cleaned in *. cbn [fold_left]. apply IH.
  now apply unlink_attempt_absent.
Qed.

(** After one attempt the file is gone, or the attempt threw. *)
Lemma unlink_attempt_gone_or_failed (p : jsstring) (w : World) :
  files (unlink_attempt env p w) !! p = None \/
  exists e, In (EUnlink p (Some e)) (unlink_events env p w).
Proof.
  unfold unlink_attempt, unlink_events.
  destruct (files w !! p) eqn:E; [destruct (unlinkError env p w)|].
  - right. eexists. left. reflexivity.
  - left. cbn [files unlinked set_files]. apply lookup_delete_eq.
  - right. eexists. left. reflexivity.
Qed.

(** After [cleanupFiles], each listed file is gone unless its deletion
    threw. *)
Lemma cleaned_gone_or_failed (ps : list jsstring) (w : World) (p : jsstring) :
  In p ps ->
  files (cleaned env ps w) !! p = None \/
  exists e, In (EUnlink p (Some e)) (cleanup_events env ps w).
Proof.
  revert w. induction ps as [|q ps IH]; intros w Hin; [destruct Hin|].
  cbn [cleanup_events]. unfold cleaned. cbn [fold_left].
  fold (cleaned env ps (unlink_attempt env q w)).
  destruct Hin as [->|Hin].
  - destruct (unlink_attempt_gone_or_failed p w) as [Hgone|[e He]].
    + left. now apply cleaned_absent.
    + right. exists e. apply in_or_app. now left.
  - destruct (IH (unlink_attempt env q w) Hin) as [Hgone|[e He]].
    + now left.
    + right. exists e. apply in_or_app. now right.
Qed.

End CleanupFacts.

Lemma switch_java : switch_language (lit "java") = Some Java.
Proof. reflexivity. Qed.

Lemma switch_cpp : switch_language (lit "cpp") = Some Cpp.
Proof. reflexivity. Qed.


(** A write that throws makes one call and touches at most its own
    path. *)
Lemma trace_write_failed (env : Env) (path data : jsstring) (e : Exn)
    (w : World) :
  trace (write_failed env path data e w)
  = trace w ++ [EWrite path data (Some e)].
Proof. unfold write_failed. destruct (writeResidue env path data w); reflexivity. Qed.

Lemma clock_write_failed (env : Env) (path data : jsstring) (e : Exn)
    (w : World) :
  clock (write_failed env path data e w) = clock w.
Proof. unfold write_failed. destruct (writeResidue env path data w); reflexivity. Qed.

Lemma entropy_write_failed (env : Env) (path data : jsstring) (e : Exn)
    (w : World) :
  entropy (write_failed env path data e w) = entropy w.
Proof. unfold write_failed. destruct (writeResidue env path data w); reflexivity. Qed.

Lemma files_write_failed_other (env : Env) (path data : jsstring) (e : Exn)
    (w : World) (q : jsstring) :
  q <> path -> files (write_failed env path data e w) !! q = files w !! q.
Proof.
  intros Hq. unfold write_failed.
  destruct (writeResidue env path data w); [|reflexivity].
  cbn [files set_files record]. now apply lookup_insert_ne.
Qed.

Ltac unfold_engine :=
  cbv beta iota zeta delta
    [executeCode executeCode_body prepare run compile exec writeFileSync
     randomBytesHex hrtime hrtime_since bind try_catch ret throw get_local
     set_local get_world modify_world push fst snd negb success].

Ltac step :=
  match goal with
  | |- context [cleanupFiles ?e ?ps ?l ?w] => rewrite (cleanupFiles_eq e ps l w)
  | |- context [switch_language ?l] =>
      destruct (switch_language l) as [[]|] eqn:?
  | |- context [regex_exec ?p ?c] => destruct (regex_exec p c) eqn:?
  | |- context [match writeError ?e ?p ?w with _ => _ end] =>
      destruct (writeError e p w) eqn:?
  | |- context [match spawnError ?e ?c ?w with _ => _ end] =>
      destruct (spawnError e c w) eqn:?
  | |- context [match p_error ?o with _ => _ end] =>
      destruct (p_error o) eqn:?
  | |- context [if ?b then _ else _] => destruct b eqn:?
  end.

Ltac trace_norm :=
  rewrite ?trace_cleaned, ?trace_write_failed;
  cbn [trace wrote ran record next_entropy advance set_files unlinked];
  rewrite <- ?app_assoc; cbn [app].


(** ** The engine *)

Section EngineFacts.

Variable env : Env.

Lemma executeCode_body_total (code language : jsstring) (w : World) :
  exists r l w',
    executeCode_body env code language [] w = (Normal r, l, w') /\
    well_formed r.
Proof.
  unfold_engine.
  repeat (step; unfold_engine).
  all: do 3 eexists; (split; [reflexivity|]).
  all: split; split; cbv [output error success];
    first [done | intros _; eauto | intros [? ?]; done].
Qed.

Lemma executeCode_returns (code language : jsstring) (w : World) :
  exists r w', executeCode env code language w = (Normal r, w') /\ well_formed r.
Proof.
  destruct (executeCode_body_total code language w) as (r & l & w' & E & Hwf).
  exists r, w'. split; [|exact Hwf].
  unfold executeCode. rewrite E. reflexivity.
Qed.

(** C2: [executeCode] never throws; it returns a result in which
    [output] is present exactly when [success] is true and [error]
    exactly when it is false, so that exactly one of the two is
    present. *)
Theorem executeCode_total_well_formed (code language : jsstring) (w : World) :
  exists r w',
    executeCode env code language w = (Normal r, w') /\
    (is_Some (output r) <-> success r = true) /\
    (is_Some (error r) <-> success r = false) /\
    (is_Some (output r) <-> ~ is_Some (error r)).
Proof.
  destruct (executeCode_returns code language w) as (r & w' & E & Hout & Herr).
  exists r, w'. split; [exact E|]. split; [exact Hout|]. split; [exact Herr|].
  rewrite Hout, Herr. destruct (success r); split; congruence.
Qed.

Lemma switch_language_default (language : jsstring) :
  ~ In language supported_tags -> switch_language language = None.
Proof.
  intros H. unfold switch_language.
  repeat case_decide; try reflexivity; exfalso; apply H; subst;
    unfold supported_tags; cbn [In]; tauto.
Qed.

(** C7: an unsupported language tag gives a failure result naming the
    tag, with zero execution time; nothing is written, deleted, spawned
    or logged. *)
Theorem unsupported_language_no_effects (code language : jsstring) (w : World) :
  ~ In language supported_tags ->
  exists w',
    executeCode env code language w =
      (Normal {| success := false;
                 output := None;
                 error := Some (lit "Unsupported language: " ++ language);
                 executionTime := Some 0 |}, w') /\
    files w' = files w /\ trace w' = trace w /\ clock w' = clock w.
Proof.
  intros H. apply switch_language_default in H.
  exists (next_entropy w). unfold_engine. rewrite H. unfold_engine.
  repeat split.
Qed.

Lemma cleanup_call_java (className : jsstring) (ps : list jsstring) (ev : Event) :
  (forall p, In p ps -> p = javaSource env className \/ p = javaClass env className) ->
  cleanup_call ps ev -> java_call env className ev.
Proof.
  intros Hps. destruct ev; unfold cleanup_call, java_call; intros Hc;
    first [contradiction | exact Hc | apply Hps; exact Hc].
Qed.

(** C6: a Java source in which [public], white space, [class], white
    space and a word occur nowhere in a row is refused at once, with the
    dedicated error and zero execution time, before any file is written
    or process spawned.  Otherwise the class name is the word of the
    leftmost such declaration, taken whole, and the source file and the
    class file are named after it, not after the random identifier, and
    the commands are built from it. *)
Theorem java_public_class_naming (code : jsstring) (w : World) :
  match regex_exec publicClassRe code with
  | None =>
      (forall pre pieces rest,
         code = pre ++ concat pieces ++ rest ->
         ~ Forall2 fits publicClassRe pieces) /\
      exists w',
        executeCode env code (lit "java") w =
          (Normal {| success := false;
                     output := None;
                     error := Some (lit "Could not find a public class in your Java code");
                     executionTime := Some 0 |}, w') /\
        files w' = files w /\ trace w' = trace w /\ clock w' = clock w
  | Some classNameMatch =>
      let className := group1 classNameMatch in
      (exists ws1 ws2,
         code = m_before classNameMatch ++ lit "public" ++ ws1 ++ lit "class"
                  ++ ws2 ++ className ++ m_after classNameMatch /\
         ws1 <> [] /\ forallb is_space ws1 = true /\
         ws2 <> [] /\ forallb is_space ws2 = true /\
         className <> [] /\ forallb is_word className = true /\
         stops is_word (m_after classNameMatch)) /\
      (forall pre pieces rest,
         code = pre ++ concat pieces ++ rest ->
         Forall2 fits publicClassRe pieces ->
         (length (m_before classNameMatch) <= length pre)%nat) /\
      exists r w' threw calls,
        executeCode env code (lit "java") w = (Normal r, w') /\
        trace w' = trace w ++ EWrite (javaSource env className) code threw :: calls /\
        Forall (java_call env className) calls /\
        (success r = true ->
         w' = cleaned env [javaSource env className; javaClass env className]
                (ran env (javaCommand env className) MAX_EXECUTION_TIME
                   (ran env (javacCommand env className) MAX_EXECUTION_TIME
                      (wrote env (javaSource env className) code
                         (next_entropy w)))))
  end.
Proof.
  destruct (regex_exec publicClassRe code) as [m|] eqn:Hm.
  - cbv zeta. split.
    { destruct (class_name_capture code m Hm)
        as (ws1 & ws2 & H1 & H2 & H3 & H4 & H5 & H6 & H7 & H8 & _).
      exists ws1, ws2. repeat (split; [assumption|]). assumption. }
    split; [apply (regex_exec_leftmost _ _ _ Hm)|].
    unfold_engine. rewrite switch_java, Hm. unfold_engine.
    repeat (step; unfold_engine).
    all: do 4 eexists; split; [reflexivity|].
    all: split; [trace_norm; reflexivity|].
    all: split; [|cbv [success]; intros; first [discriminate | reflexivity]].
    all: repeat (apply Forall_cons; split; [cbn; auto|]).
    all: try apply Forall_nil_2.
    all: eapply List.Forall_impl; [|apply cleanup_events_calls].
    all: intros ev; apply cleanup_call_java; cbn [In]; intuition auto.
  - split; [apply regex_exec_None_iff, Hm|].
    exists (next_entropy w). unfold_engine. rewrite switch_java, Hm.
    unfold_engine. repeat split.
Qed.

(** *** Compile failures *)

Lemma compiledPlan_cases (code language : jsstring) (w : World) (pl : CompiledPlan) :
  compiledPlan env code language w = Some pl ->
  (switch_language language = Some Java /\
   exists m, regex_exec publicClassRe code = Some m /\
     pl = {| cp_source := javaSource env (group1 m);
             cp_compile := javacCommand env (group1 m);
             cp_output := javaClass env (group1 m);
             cp_run := javaCommand env (group1 m) |}) \/
  (switch_language language = Some Cpp /\
   pl = {| cp_source := cppSource env (randomHex env (entropy w));
           cp_compile := gppCommand env (randomHex env (entropy w));
           cp_output := cppBinary env (randomHex env (entropy w));
           cp_run := cppBinary env (randomHex env (entropy w)) |}).
Proof.
  unfold compiledPlan.
  destruct (switch_language language) as [[]|]; try discriminate.
  - destruct (regex_exec publicClassRe code) as [m|]; [|discriminate].
    intros [= <-]. left. eauto.
  - intros [= <-]. right. eauto.
Qed.

Lemma compile_failure_run (code language : jsstring) (w : World)
    (pl : CompiledPlan) (e : ExecError) :
  let w1 := wrote env (cp_source pl) code (next_entropy w) in
  compiledPlan env code language w = Some pl ->
  writeError env (cp_source pl) (next_entropy w) = None ->
  spawnError env (cp_compile pl) w1 = None ->
  p_error (child env (cp_compile pl) MAX_EXECUTION_TIME w1) = Some e ->
  executeCode env code language w =
    (Normal {| success := false;
               output := None;
               error := Some (or_else
                                (p_stderr (child env (cp_compile pl)
                                             MAX_EXECUTION_TIME w1))
                                (err_message e));
               executionTime := Some 0 |},
     cleaned env [cp_source pl] (ran env (cp_compile pl) MAX_EXECUTION_TIME w1)).
Proof.
  intros w1 Hpl Hw Hs He. subst w1.
  destruct (compiledPlan_cases _ _ _ _ Hpl) as [(Hl & m & Hm & ->)|(Hl & ->)];
    cbn [cp_source cp_compile] in *.
  - unfold_engine. rewrite Hl, Hm. unfold_engine.
    unfold javacCommand, javaSource in *. rewrite Hw. unfold_engine.
    rewrite Hs. unfold_engine. rewrite He. unfold_engine.
    rewrite (cleanupFiles_eq env). reflexivity.
  - unfold_engine. rewrite Hl. unfold_engine.
    unfold gppCommand, cppSource, cppBinary in *. rewrite Hw. unfold_engine.
    rewrite Hs. unfold_engine. rewrite He. unfold_engine.
    rewrite (cleanupFiles_eq env). reflexivity.
Qed.

(** C5: when the compile command of a Java or C++ request ends with an
    error (non-zero exit or deadline), the request fails with the
    compiler's standard error, or the error's message when that is
    empty, and zero execution time; after writing the source and
    spawning the compiler the only further call is the deletion of the
    source file: no second process is spawned. *)
Theorem compile_failure_ends_request (code language : jsstring) (w : World)
    (pl : CompiledPlan) (e : ExecError) :
  let w1 := wrote env (cp_source pl) code (next_entropy w) in
  let w2 := ran env (cp_compile pl) MAX_EXECUTION_TIME w1 in
  compiledPlan env code language w = Some pl ->
  writeError env (cp_source pl) (next_entropy w) = None ->
  spawnError env (cp_compile pl) w1 = None ->
  p_error (child env (cp_compile pl) MAX_EXECUTION_TIME w1) = Some e ->
  exists w',
    executeCode env code language w =
      (Normal {| success := false;
                 output := None;
                 error := Some (or_else
                                  (p_stderr (child env (cp_compile pl)
                                               MAX_EXECUTION_TIME w1))
                                  (err_message e));
                 executionTime := Some 0 |}, w') /\
    trace w' = trace w ++ [EWrite (cp_source pl) code None;
                           ESpawn (cp_compile pl) MAX_EXECUTION_TIME None]
                 ++ unlink_events env (cp_source pl) w2.
Proof.
  intros w1 w2 Hpl Hw Hs He. eexists. split.
  - apply (compile_failure_run code language w pl e Hpl Hw Hs He).
  - fold w1. fold w2. rewrite trace_cleaned. cbn [cleanup_events].
    rewrite app_nil_r. subst w2 w1.
    cbn [trace wrote ran record next_entropy advance set_files].
    rewrite <- !app_assoc. reflexivity.
Qed.

(** *** The run phase *)

(** A process killed by the deadline ([killed], signal [SIGTERM]) in the
    run phase is reported as timed out. *)
Lemma run_timeout_message (cmd : jsstring) (startTime : Z * Z)
    (l : list jsstring) (w : World) (e : ExecError) :
  spawnError env cmd w = None ->
  p_error (child env cmd MAX_EXECUTION_TIME w) = Some e ->
  err_killed e = true -> err_signal e = Some (lit "SIGTERM") ->
  exists t w',
    run env cmd startTime l w =
      (Normal {| success := false;
                 output := None;
                 error := Some (lit "Execution timed out");
                 executionTime := Some t |}, l, w').
Proof.
  intros Hs He Hk Hsig. unfold_engine. rewrite Hs. unfold_engine.
  rewrite He, Hk, Hsig. rewrite bool_decide_eq_true_2 by reflexivity.
  cbn [andb]. eauto.
Qed.

(** Any other error of the run phase is reported through the standard
    error, or the error's message when that is empty. *)
Lemma run_failure_message (cmd : jsstring) (startTime : Z * Z)
    (l : list jsstring) (w : World) (e : ExecError) :
  spawnError env cmd w = None ->
  p_error (child env cmd MAX_EXECUTION_TIME w) = Some e ->
  err_killed e && bool_decide (err_signal e = Some (lit "SIGTERM")) = false ->
  exists t w',
    run env cmd startTime l w =
      (Normal {| success := false;
                 output := None;
                 error := Some (or_else
                                  (p_stderr (child env cmd MAX_EXECUTION_TIME w))
                                  (err_message e));
                 executionTime := Some t |}, l, w').
Proof.
  intros Hs He Hk. unfold_engine. rewrite Hs. unfold_engine.
  rewrite He, Hk. eauto.
Qed.

Lemma elapsed_since (c d : Z) :
  c + d - (c / 1000000000 * 1000000000 + c mod 1000000000) = d.
Proof.
  pose proof (Z.div_mod c 1000000000 ltac:(lia)) as H. lia.
Qed.

(** C4 (as amended): for a successful Java or C++ request the reported
    execution time is the time from the start of the invocation to the
    end of the run: writing the source, compiling and running, rounded
    to milliseconds. *)
Theorem execution_time_includes_compile (code language : jsstring)
    (w : World) (pl : CompiledPlan) (r : Result) (w' : World) :
  let w1 := wrote env (cp_source pl) code (next_entropy w) in
  let w2 := ran env (cp_compile pl) MAX_EXECUTION_TIME w1 in
  compiledPlan env code language w = Some pl ->
  executeCode env code language w = (Normal r, w') ->
  success r = true ->
  executionTime r =
    Some (round_ns (writeLatency env
                    + p_elapsed (child env (cp_compile pl) MAX_EXECUTION_TIME w1)
                    + p_elapsed (child env (cp_run pl) MAX_EXECUTION_TIME w2))).
Proof.
  intros w1 w2 Hpl. subst w2 w1.
  destruct (compiledPlan_cases _ _ _ _ Hpl) as [(Hl & m & Hm & ->)|(Hl & ->)];
    cbn [cp_source cp_compile cp_run].
  - unfold_engine. rewrite Hl, Hm. unfold_engine.
    unfold javaCommand, javacCommand, javaSource.
    repeat (step; unfold_engine).
    all: intros [= <- <-]; cbv [success executionTime]; intros Hok;
      try discriminate.
    unfold round_ns. do 3 f_equal.
    all: cbn [clock wrote ran record next_entropy advance set_files];
      rewrite <- !Z.add_assoc; rewrite elapsed_since; reflexivity.
  - unfold_engine. rewrite Hl. unfold_engine.
    unfold gppCommand, cppSource, cppBinary.
    repeat (step; unfold_engine).
    all: intros [= <- <-]; cbv [success executionTime]; intros Hok;
      try discriminate.
    unfold round_ns. do 3 f_equal.
    all: cbn [clock wrote ran record next_entropy advance set_files];
      rewrite <- !Z.add_assoc; rewrite elapsed_since; reflexivity.
Qed.

End EngineFacts.

(** ** Cleanup and the result *)

Lemma settled_after_cleanup (env : Env) (ps : list jsstring) (w : World)
    (before : list Event) (p : jsstring) :
  In p ps ->
  files (cleaned env ps w) !! p = None \/
  exists e, In (EUnlink p (Some e)) (before ++ cleanup_events env ps w).
Proof.
  intros Hin. destruct (cleaned_gone_or_failed env ps w p Hin) as [H|[e He]].
  - now left.
  - right. exists e. apply in_or_app. now right.
Qed.

(** Deletion failures never reach the result. *)
Lemma result_ignores_unlinkError (env : Env)
    (f : jsstring -> World -> option Exn) (code language : jsstring)
    (w : World) :
  fst (executeCode (with_unlinkError f env) code language w)
  = fst (executeCode env code language w).
Proof.
  unfold_engine.
  change (path_join (with_unlinkError f env)) with (path_join env).
  change (writeError (with_unlinkError f env)) with (writeError env).
  change (spawnError (with_unlinkError f env)) with (spawnError env).
  change (child (with_unlinkError f env)) with (child env).
  change (executionDir (with_unlinkError f env)) with (executionDir env).
  change (randomHex (with_unlinkError f env)) with (randomHex env).
  change (wrote (with_unlinkError f env)) with (wrote env).
  change (ran (with_unlinkError f env)) with (ran env).
  repeat (step; unfold_engine).
  all: reflexivity.
Qed.

(** C1 (as amended): deletion failures never change the result; and on
    a machine where nothing else throws, when [executeCode] returns each
    file of the artifact set is gone from the disk unless its deletion
    was attempted and threw, or the compile step failed and the file is
    the compiled one, which is then left alone. *)
Theorem artifacts_gone_unless_deletion_fails (env : Env)
    (code language : jsstring) (w : World) :
  (forall f,
     fst (executeCode (with_unlinkError f env) code language w)
     = fst (executeCode env code language w)) /\
  (no_internal_exception env ->
   exists r w' calls,
     executeCode env code language w = (Normal r, w') /\
     trace w' = trace w ++ calls /\
     forall p, In p (artifactSet env code language w) ->
       files w' !! p = None \/
       (exists e, In (EUnlink p (Some e)) calls) \/
       (exists pl e,
          compiledPlan env code language w = Some pl /\
          p = cp_output pl /\
          p_error (child env (cp_compile pl) MAX_EXECUTION_TIME
                     (wrote env (cp_source pl) code (next_entropy w)))
          = Some e)).
Proof.
  split; [intros f; apply result_ignores_unlinkError|].
  intros [Hw Hs]. unfold artifactSet, compiledPlan. unfold_engine.
  destruct (switch_language language) as [[]|] eqn:Hl; unfold_engine.
  2: destruct (regex_exec publicClassRe code) as [m|] eqn:Hm; unfold_engine.
  all: repeat (first [rewrite Hw | rewrite Hs | step]; unfold_engine).
  all: do 3 eexists; split; [reflexivity|].
  all: split; [first [trace_norm; reflexivity | symmetry; apply app_nil_r]|].
  all: intros p Hp; cbn [In] in Hp.
  all: repeat match goal with
         | H : _ \/ _ |- _ => destruct H as [<-|H]
         | H : False |- _ => destruct H
         end.
  all: try (apply or_assoc; left;
            refine (settled_after_cleanup env _ _ [_] _ _); cbn [In app]; solve [auto]).
  all: try (apply or_assoc; left;
            refine (settled_after_cleanup env _ _ [_; _] _ _); cbn [In app]; solve [auto]).
  all: try (apply or_assoc; left;
            refine (settled_after_cleanup env _ _ [_; _; _] _ _); cbn [In app]; solve [auto]).
  all: right; right; do 2 eexists; split; [reflexivity|];
    cbn [cp_output cp_compile cp_source]; split; [reflexivity|eassumption].
Qed.

(** ** The statements on example machines *)

(** On a working machine a C++ request writes its source, compiles,
    runs, deletes both files and leaves the disk empty. *)
Example cpp_request_on_working_machine :
  let env := quietEnv toolchain in
  executeCode env cppProgram (lit "cpp") startWorld =
    (Normal {| success := true; output := Some (lit "42" ++ [10%N]);
               error := None; executionTime := Some 3000 |},
     {| files := ∅;
        clock := 3000000000;
        entropy := 1;
        trace := [EWrite (cppSource env (exampleId 0)) cppProgram None;
                  ESpawn (gppCommand env (exampleId 0)) 5000 None;
                  ESpawn (cppBinary env (exampleId 0)) 5000 None;
                  EUnlink (cppSource env (exampleId 0)) None;
                  EUnlink (cppBinary env (exampleId 0)) None] |}).
Proof. vm_compute. reflexivity. Qed.

(** The same for a Java request, with files named after the class. *)
Example java_request_on_working_machine :
  let env := quietEnv toolchain in
  executeCode env javaProgram (lit "java") startWorld =
    (Normal {| success := true; output := Some (lit "42" ++ [10%N]);
               error := None; executionTime := Some 3000 |},
     {| files := ∅;
        clock := 3000000000;
        entropy := 1;
        trace := [EWrite (lit "/app/code-executions/Main.java") javaProgram None;
                  ESpawn (lit "javac -d /app/code-executions /app/code-executions/Main.java")
                    5000 None;
                  ESpawn (lit "java -cp /app/code-executions Main") 5000 None;
                  EUnlink (lit "/app/code-executions/Main.java") None;
                  EUnlink (lit "/app/code-executions/Main.class") None] |}).
Proof. vm_compute. reflexivity. Qed.

(** C1 (as stated) fails: with deletions refused, a successful
    JavaScript request leaves its source file on the disk. *)
Lemma source_file_survives_refused_deletion :
  exists r w' p,
    executeCode lockedEnv jsProgram (lit "javascript") startWorld
      = (Normal r, w') /\
    success r = true /\
    In p (artifactSet lockedEnv jsProgram (lit "javascript") startWorld) /\
    files w' !! p = Some jsProgram.
Proof.
  exists {| success := true; output := Some (lit "42" ++ [10%N]);
            error := None; executionTime := Some 1000 |},
    (snd (executeCode lockedEnv jsProgram (lit "javascript") startWorld)),
    (path_join lockedEnv (exampleId 0 ++ lit ".js")).
  split; [vm_compute; reflexivity|].
  split; [reflexivity|].
  split; [left; reflexivity|].
  vm_compute. reflexivity.
Qed.

Lemma artifacts_gone_unless_deletion_fails_witness :
  no_internal_exception (quietEnv toolchain) /\
  exists r w' calls,
    executeCode (quietEnv toolchain) cppProgram (lit "cpp") startWorld
      = (Normal r, w') /\
    trace w' = trace startWorld ++ calls /\
    forall p,
      In p (artifactSet (quietEnv toolchain) cppProgram (lit "cpp") startWorld) ->
      files w' !! p = None \/
      (exists e, In (EUnlink p (Some e)) calls) \/
      (exists pl e,
         compiledPlan (quietEnv toolchain) cppProgram (lit "cpp") startWorld
           = Some pl /\
         p = cp_output pl /\
         p_error (child (quietEnv toolchain) (cp_compile pl) MAX_EXECUTION_TIME
                    (wrote (quietEnv toolchain) (cp_source pl) cppProgram
                       (next_entropy startWorld)))
         = Some e).
Proof.
  assert (H : no_internal_exception (quietEnv toolchain))
    by (split; intros; reflexivity).
  split; [exact H|].
  exact (proj2 (artifacts_gone_unless_deletion_fails
                  (quietEnv toolchain) cppProgram (lit "cpp") startWorld) H).
Defined.

(** C3: a compile step killed by the deadline is reported with the
    command-failure message of [exec], not as a timeout. *)
Theorem compile_timeout_reported_as_command_failure :
  let env := quietEnv hungCompiler in
  let cmd := gppCommand env (exampleId 0) in
  (forall w, exists e,
     p_error (child env cmd MAX_EXECUTION_TIME w) = Some e /\
     err_killed e = true /\ err_signal e = Some (lit "SIGTERM")) /\
  fst (executeCode env cppProgram (lit "cpp") startWorld)
  = Normal {| success := false;
              output := None;
              error := Some (lit "Command failed: " ++ cmd ++ [10%N]);
              executionTime := Some 0 |} /\
  lit "Command failed: " ++ cmd ++ [10%N] <> lit "Execution timed out".
Proof.
  intros env cmd. split; [|split].
  - intros w. eexists. split; [vm_compute; reflexivity|]. split; reflexivity.
  - vm_compute. reflexivity.
  - vm_compute. discriminate.
Qed.

(** C4 (as stated) fails: with two seconds of compilation and one second
    of run, the reported time is three seconds. *)
Lemma execution_time_is_not_run_time_only :
  let env := quietEnv toolchain in
  exists r w',
    executeCode env cppProgram (lit "cpp") startWorld = (Normal r, w') /\
    success r = true /\
    executionTime r = Some 3000 /\
    (forall w,
       round_ns (p_elapsed (child env (cppBinary env (exampleId 0))
                              MAX_EXECUTION_TIME w)) = 1000).
Proof.
  intros env.
  exists {| success := true; output := Some (lit "42" ++ [10%N]);
            error := None; executionTime := Some 3000 |},
    (snd (executeCode env cppProgram (lit "cpp") startWorld)).
  split; [vm_compute; reflexivity|].
  repeat split.
Qed.

Lemma execution_time_includes_compile_witness :
  let env := quietEnv toolchain in
  let pl := {| cp_source := cppSource env (exampleId 0);
               cp_compile := gppCommand env (exampleId 0);
               cp_output := cppBinary env (exampleId 0);
               cp_run := cppBinary env (exampleId 0) |} in
  let r := {| success := true; output := Some (lit "42" ++ [10%N]);
              error := None; executionTime := Some 3000 |} in
  let w' := snd (executeCode env cppProgram (lit "cpp") startWorld) in
  compiledPlan env cppProgram (lit "cpp") startWorld = Some pl /\
  executeCode env cppProgram (lit "cpp") startWorld = (Normal r, w') /\
  success r = true /\
  executionTime r = Some (round_ns (0 + 2000000000 + 1000000000)).
Proof.
  intros env pl r w'.
  assert (Hpl : compiledPlan env cppProgram (lit "cpp") startWorld = Some pl)
    by reflexivity.
  assert (Hrun : executeCode env cppProgram (lit "cpp") startWorld = (Normal r, w'))
    by (vm_compute; reflexivity).
  assert (Hok : success r = true) by reflexivity.
  split; [exact Hpl|]. split; [exact Hrun|]. split; [exact Hok|].
  exact (execution_time_includes_compile env cppProgram (lit "cpp") startWorld
           pl r w' Hpl Hrun Hok).
Defined.

Lemma compile_failure_ends_request_witness :
  let env := quietEnv rejectingCompiler in
  let pl := {| cp_source := cppSource env (exampleId 0);
               cp_compile := gppCommand env (exampleId 0);
               cp_output := cppBinary env (exampleId 0);
               cp_run := cppBinary env (exampleId 0) |} in
  let e := {| err_killed := false;
              err_signal := None;
              err_message := lit "Command failed: " ++ cp_compile pl |} in
  let w1 := wrote env (cp_source pl) cppProgram (next_entropy startWorld) in
  let w2 := ran env (cp_compile pl) MAX_EXECUTION_TIME w1 in
  compiledPlan env cppProgram (lit "cpp") startWorld = Some pl /\
  writeError env (cp_source pl) (next_entropy startWorld) = None /\
  spawnError env (cp_compile pl) w1 = None /\
  p_error (child env (cp_compile pl) MAX_EXECUTION_TIME w1) = Some e /\
  exists w',
    executeCode env cppProgram (lit "cpp") startWorld =
      (Normal {| success := false;
                 output := None;
                 error := Some (lit "error: expected ';' before '}' token");
                 executionTime := Some 0 |}, w') /\
    trace w' = trace startWorld
                 ++ [EWrite (cp_source pl) cppProgram None;
                     ESpawn (cp_compile pl) MAX_EXECUTION_TIME None]
                 ++ unlink_events env (cp_source pl) w2.
Proof.
  intros env pl e w1 w2.
  assert (Hpl : compiledPlan env cppProgram (lit "cpp") startWorld = Some pl)
    by reflexivity.
  assert (Hw : writeError env (cp_source pl) (next_entropy startWorld) = None)
    by reflexivity.
  assert (Hs : spawnError env (cp_compile pl) w1 = None) by reflexivity.
  assert (He : p_error (child env (cp_compile pl) MAX_EXECUTION_TIME w1) = Some e)
    by (vm_compute; reflexivity).
  repeat (split; [assumption|]).
  exact (compile_failure_ends_request env cppProgram (lit "cpp") startWorld
           pl e Hpl Hw Hs He).
Defined.

Lemma java_public_class_naming_witness :
  ((forall pre pieces rest,
      javaFragment = pre ++ concat pieces ++ rest ->
      ~ Forall2 fits publicClassRe pieces) /\
   exists w',
     executeCode (quietEnv toolchain) javaFragment (lit "java") startWorld =
       (Normal {| success := false;
                  output := None;
                  error := Some (lit "Could not find a public class in your Java code");
                  executionTime := Some 0 |}, w') /\
     files w' = files startWorld /\ trace w' = trace startWorld /\
     clock w' = clock startWorld) /\
  ((exists ws1 ws2,
      javaProgram = [] ++ lit "public" ++ ws1 ++ lit "class" ++ ws2
                      ++ lit "Main"
                      ++ lit " { public static void main(String[] a) { } }" /\
      ws1 <> [] /\ forallb is_space ws1 = true /\
      ws2 <> [] /\ forallb is_space ws2 = true /\
      lit "Main" <> [] /\ forallb is_word (lit "Main") = true /\
      stops is_word (lit " { public static void main(String[] a) { } }")) /\
   (forall pre pieces rest,
      javaProgram = pre ++ concat pieces ++ rest ->
      Forall2 fits publicClassRe pieces ->
      (length (@nil N) <= length pre)%nat) /\
   exists r w' threw calls,
     executeCode (quietEnv toolchain) javaProgram (lit "java") startWorld
       = (Normal r, w') /\
     trace w' = trace startWorld
                  ++ EWrite (javaSource (quietEnv toolchain) (lit "Main"))
                       javaProgram threw :: calls /\
     Forall (java_call (quietEnv toolchain) (lit "Main")) calls /\
     (success r = true ->
      w' = cleaned (quietEnv toolchain)
             [javaSource (quietEnv toolchain) (lit "Main");
              javaClass (quietEnv toolchain) (lit "Main")]
             (ran (quietEnv toolchain)
                (javaCommand (quietEnv toolchain) (lit "Main"))
                MAX_EXECUTION_TIME
                (ran (quietEnv toolchain)
                   (javacCommand (quietEnv toolchain) (lit "Main"))
                   MAX_EXECUTION_TIME
                   (wrote (quietEnv toolchain)
                      (javaSource (quietEnv toolchain) (lit "Main"))
                      javaProgram (next_entropy startWorld)))))).
Proof.
  split.
  - exact (java_public_class_naming (quietEnv toolchain) javaFragment startWorld).
  - exact (java_public_class_naming (quietEnv toolchain) javaProgram startWorld).
Defined.

Lemma unsupported_language_no_effects_witness :
  ~ In (lit "ruby") supported_tags /\
  exists w',
    executeCode (quietEnv printsAnswer) jsProgram (lit "ruby") startWorld =
      (Normal {| success := false;
                 output := None;
                 error := Some (lit "Unsupported language: " ++ lit "ruby");
                 executionTime := Some 0 |}, w') /\
    files w' = files startWorld /\ trace w' = trace startWorld /\
    clock w' = clock startWorld.
Proof.
  assert (H : ~ In (lit "ruby") supported_tags).
  { intros H. cbv in H. intuition discriminate. }
  split; [exact H|].
  exact (unsupported_language_no_effects (quietEnv printsAnswer) jsProgram
           (lit "ruby") startWorld H).
Defined.

(** ** The test harness *)

(** [JSON.stringify] throws only on a [BigInt]. *)
Lemma SerializeJSONProperty_total :
  forall v, has_bigint v = false ->
  exists o, SerializeJSONProperty v = Normal o.
Proof.
  fix IH 1. intros [ | |b|z|z|s|items|props]; cbn [has_bigint];
    intros Hv; try discriminate; try (eexists; reflexivity).
  - cbn [SerializeJSONProperty].
    match goal with
    | |- exists o, match ?e with _ => _ end = _ =>
        assert (Hparts : exists parts, e = Normal parts)
    end.
    { revert Hv. induction items as [|x items IHitems]; intros Hv;
        [eexists; reflexivity|].
      apply orb_false_elim in Hv as [Hx Hrest].
      destruct (IH x Hx) as [o ->].
      destruct (IHitems Hrest) as [parts ->]. eexists; reflexivity. }
    destruct Hparts as [parts ->]. eexists; reflexivity.
  - cbn [SerializeJSONProperty].
    match goal with
    | |- exists o, match ?e with _ => _ end = _ =>
        assert (Hparts : exists parts, e = Normal parts)
    end.
    { revert Hv. induction props as [|[k x] props IHprops]; intros Hv;
        [eexists; reflexivity|].
      apply orb_false_elim in Hv as [Hx Hrest].
      destruct (IH x Hx) as [o ->].
      destruct (IHprops Hrest) as [parts ->]. destruct o; eexists; reflexivity. }
    destruct Hparts as [parts ->]. eexists; reflexivity.
Qed.

Lemma JSON_stringify_total (v : JSValue) :
  has_bigint v = false -> exists t, JSON_stringify v = Normal t.
Proof.
  intros Hv. unfold JSON_stringify.
  destruct (SerializeJSONProperty_total v Hv) as [[t|] ->]; eexists; reflexivity.
Qed.

Ltac unfold_harness :=
  cbv beta iota zeta delta
    [testBody modifyCode lift await bind try_catch ret throw get_local
     set_local push].

Section HarnessFacts.

Variable env : Env.

(** The rewrite of the code reads neither the results nor the world: it
    gives the code to execute, or nothing for an unsupported language,
    or the exception of [JSON.stringify]. *)
Lemma modifyCode_cases {L : Type} (code language : jsstring) (t : TestCase.t)
    (l : L) (w : World) :
  (exists c, In language supported_tags /\
     modifyCode code language t l w = (Normal (Some c), l, w)) \/
  (switch_language language = None /\
   modifyCode code language t l w = (Normal None, l, w)) \/
  (exists e, JSON_stringify (TestCase.input t) = Throw e /\
     modifyCode code language t l w = (Throw e, l, w)).
Proof.
  unfold_harness. unfold switch_language, supported_tags.
  repeat case_decide; subst; cbn [In];
    try (right; left; split; reflexivity).
  all: destruct (JSON_stringify (TestCase.input t)) as [arg|e];
    [left; eexists; split; [tauto|reflexivity]
    |right; right; exists e; split; reflexivity].
Qed.

Lemma modifyCode_reaches {L : Type} (code language : jsstring)
    (t : TestCase.t) (l : L) (w : World) :
  In language supported_tags ->
  has_bigint (TestCase.input t) = false ->
  exists c, modifyCode code language t l w = (Normal (Some c), l, w).
Proof.
  intros Hl Ht. destruct (JSON_stringify_total _ Ht) as [arg Harg].
  destruct (modifyCode_cases code language t l w)
    as [(c & _ & Hc)|[[Hs _]|(e & He & _)]]; [eauto| |congruence].
  exfalso. revert Hs. unfold switch_language, supported_tags in *.
  cbn [In] in Hl. repeat case_decide; try discriminate. intuition congruence.
Qed.

(** A case that reaches [executeCode] is recorded from its result. *)
Lemma testBody_executed (code language : jsstring) (t : TestCase.t)
    (results : list TestResult) (w : World) (modifiedCode : jsstring) :
  modifyCode code language t results w
    = (Normal (Some modifiedCode), results, w) ->
  exists r w',
    executeCode env modifiedCode language w = (Normal r, w') /\
    well_formed r /\
    testBody env code language t results w
      = (Normal tt, results ++ [recorded r t], w').
Proof.
  intros Hmod.
  destruct (executeCode_returns env modifiedCode language w)
    as (r & w1 & E & Hwf).
  exists r, w1. split; [exact E|]. split; [exact Hwf|].
  unfold testBody, try_catch, bind at 1. rewrite Hmod.
  unfold_harness. rewrite E. unfold_harness.
  unfold recorded. destruct Hwf as [Hout Herr]. destruct (success r) eqn:Hs.
  - destruct (proj2 Hout eq_refl) as [out Ho]. rewrite Ho. unfold_harness.
    destruct (String_ (TestCase.output t)); reflexivity.
  - reflexivity.
Qed.

Lemma recorded_outcome (r : Result) (t : TestCase.t) :
  well_formed r -> test (recorded r t) = t /\ case_outcome (recorded r t).
Proof.
  intros [Hout Herr]. unfold recorded, case_outcome.
  destruct (success r) eqn:Hs.
  - destruct (proj2 Hout eq_refl) as [out Ho]. rewrite Ho.
    destruct (String_ (TestCase.output t)) as [str|e] eqn:Hstr;
      cbn [test result testPassed expected thrownCase success].
    + split; [reflexivity|]. split; [|congruence].
      intros _. exists out, str. rewrite Hstr. auto.
    + split; [reflexivity|]. split; [discriminate|reflexivity].
  - cbn [test result testPassed expected]. split; [reflexivity|].
    split; [congruence|reflexivity].
Qed.

(** One turn of the loop always completes and pushes one result, which
    carries the case. *)
Lemma testBody_pushes_one (code language : jsstring) (t : TestCase.t)
    (results : list TestResult) (w : World) :
  exists tr w',
    testBody env code language t results w
      = (Normal tt, results ++ [tr], w') /\
    test tr = t /\ case_outcome tr.
Proof.
  destruct (modifyCode_cases code language t results w)
    as [(c & _ & Hc)|[[Hl Hc]|(e & He & Hc)]].
  - destruct (testBody_executed _ _ _ _ _ _ Hc) as (r & w' & _ & Hwf & ->).
    exists (recorded r t), w'. split; [reflexivity|].
    apply recorded_outcome, Hwf.
  - exists (unsupportedCase language t), w.
    split; [unfold testBody, try_catch, bind at 1; rewrite Hc; reflexivity|].
    split; [reflexivity|]. split; [discriminate|reflexivity].
  - exists (thrownCase e t), w.
    split; [unfold testBody, try_catch, bind at 1; rewrite Hc; reflexivity|].
    split; [reflexivity|]. split; [discriminate|reflexivity].
Qed.

Lemma forEach_testBody (code language : jsstring) (tests : list TestCase.t)
    (results : list TestResult) (w : World) :
  exists rs w',
    forEach tests (testBody env code language) results w
      = (Normal tt, results ++ rs, w') /\
    List.map test rs = tests /\
    Forall case_outcome rs.
Proof.
  revert results w. induction tests as [|t tests IH]; intros results w.
  - exists [], w. rewrite app_nil_r. repeat split. constructor.
  - cbn [forEach]. unfold bind at 1.
    destruct (testBody_pushes_one code language t results w)
      as (tr & w1 & -> & Ht & Hc).
    destruct (IH (results ++ [tr]) w1) as (rs & w2 & -> & Hm & Hf).
    exists (tr :: rs), w2. rewrite <- app_assoc. cbn [app List.map].
    rewrite Ht, Hm. repeat split. now constructor.
Qed.


(** C9 (as amended): a case that reaches [executeCode] is recorded from
    the result of that execution.  When the execution fails, the result
    is recorded as it is, without [testPassed].  When it succeeds and
    [String] converts the expected value, [testPassed] is the equality
    of the trimmed output and the trimmed string form of the expected
    value (so ["42\n"] against [42] passes); when [String] throws, the
    [catch] block records the case as a failure carrying the
    exception's message, without [testPassed]. *)
Theorem testPassed_compares_trimmed_text (code language : jsstring)
    (t : TestCase.t) (results : list TestResult) (w : World) :
  In language supported_tags ->
  has_bigint (TestCase.input t) = false ->
  exists modifiedCode r w' tr,
    modifyCode code language t results w
      = (Normal (Some modifiedCode), results, w) /\
    executeCode env modifiedCode language w = (Normal r, w') /\
    testBody env code language t results w
      = (Normal tt, results ++ [tr], w') /\
    test tr = t /\
    (success r = false -> result tr = r /\ testPassed tr = None) /\
    (success r = true ->
     exists out,
       output r = Some out /\
       match String_ (TestCase.output t) with
       | Normal str =>
           result tr = r /\
           testPassed tr = Some (bool_decide (trim out = trim str)) /\
           expected tr = Some (TestCase.output t)
       | Throw e => tr = thrownCase e t
       end) /\
    String_ (VNum (lit "42")) = Normal (lit "42") /\
    trim (lit "42" ++ [10%N]) = trim (lit "42").
Proof.
  intros Hl Ht.
  destruct (modifyCode_reaches code language t results w Hl Ht) as [c Hc].
  destruct (testBody_executed _ _ _ _ _ _ Hc) as (r & w' & E & Hwf & Hbody).
  exists c, r, w', (recorded r t).
  split; [exact Hc|]. split; [exact E|]. split; [exact Hbody|].
  destruct (recorded_outcome r t Hwf) as [Htest _].
  split; [exact Htest|].
  unfold recorded. destruct Hwf as [Hout Herr].
  split; [|split; [|split; reflexivity]].
  - intros Hs. rewrite Hs. split; reflexivity.
  - intros Hs. rewrite Hs. destruct (proj2 Hout Hs) as [out Ho].
    exists out. rewrite Ho. split; [reflexivity|].
    destruct (String_ (TestCase.output t)); repeat split.
Qed.

(** *** The entry-point rewrite *)


Lemma mainPattern_cases (language : jsstring) (re : list item) :
  mainPattern language = Some re ->
  (switch_language language = Some Java /\ re = javaMainRe) \/
  (switch_language language = Some Cpp /\ re = cppMainRe).
Proof.
  unfold mainPattern.
  destruct (switch_language language) as [[]|]; intros [= <-]; auto.
Qed.


End HarnessFacts.



(** C9 (as stated) fails: the program of the case runs to a clean exit,
    yet the case is recorded as a failure without [testPassed], because
    the expected value has an own [toString] property and [String]
    throws on it. *)
Lemma successful_run_can_lack_testPassed :
  exists r w',
    executeCode (quietEnv printsAnswer)
      (jsProgram ++ [10; 10]%N ++ lit "console.log(solution(1));")
      (lit "javascript") startWorld = (Normal r, w') /\
    success r = true /\
    runTestCases (quietEnv printsAnswer) jsProgram (lit "javascript")
      [toStringCase] startWorld
    = (Normal [thrownCase TypeError_primitive toStringCase], w') /\
    success (result (thrownCase TypeError_primitive toStringCase)) = false /\
    testPassed (thrownCase TypeError_primitive toStringCase) = None.
Proof.
  do 2 eexists. split; [vm_compute; reflexivity|].
  split; [reflexivity|]. split; [vm_compute; reflexivity|].
  split; reflexivity.
Qed.

Lemma testPassed_compares_trimmed_text_witness :
  let env := quietEnv printsAnswer in
  In (lit "python") supported_tags /\
  has_bigint (TestCase.input answerCase) = false /\
  exists modifiedCode r w' tr,
    modifyCode (lit "def solution(x): return 42") (lit "python") answerCase
      (@nil TestResult) startWorld
      = (Normal (Some modifiedCode), [], startWorld) /\
    executeCode env modifiedCode (lit "python") startWorld = (Normal r, w') /\
    testBody env (lit "def solution(x): return 42") (lit "python") answerCase
      [] startWorld
      = (Normal tt, [] ++ [tr], w') /\
    test tr = answerCase /\
    (success r = false -> result tr = r /\ testPassed tr = None) /\
    (success r = true ->
     exists out,
       output r = Some out /\
       result tr = r /\
       testPassed tr = Some (bool_decide (trim out = trim (lit "42"))) /\
       expected tr = Some (TestCase.output answerCase)) /\
    String_ (VNum (lit "42")) = Normal (lit "42") /\
    trim (lit "42" ++ [10%N]) = trim (lit "42").
Proof.
  intros env.
  assert (Hl : In (lit "python") supported_tags) by (right; left; reflexivity).
  assert (Ht : has_bigint (TestCase.input answerCase) = false) by reflexivity.
  split; [exact Hl|]. split; [exact Ht|].
  exact (testPassed_compares_trimmed_text env (lit "def solution(x): return 42")
           (lit "python") answerCase [] startWorld Hl Ht).
Defined.

(** * Further properties of the engine *)

Section CleanupMore.

Variable env : Env.

Lemma unlink_attempt_other (p q : jsstring) (w : World) :
  p <> q -> files (unlink_attempt env p w) !! q = files w !! q.
Proof.
  intros Hne. unfold unlink_attempt.
  destruct (files w !! p); [destruct (unlinkError env p w)|];
    cbn [files record unlinked set_files]; try reflexivity.
  now apply lookup_delete_ne.
Qed.

Lemma cleaned_other (ps : list jsstring) (q : jsstring) (w : World) :
  ~ In q ps -> files (cleaned env ps w) !! q = files w !! q.
Proof.
  revert w. induction ps as [|p ps IH]; intros w Hq; [reflexivity|].
  unfold cleaned in *. cbn [fold_left]. rewrite IH.
  - apply unlink_attempt_other. intros ->. apply Hq. now left.
  - intros H. apply Hq. now right.
Qed.

Lemma entropy_cleaned (ps : list jsstring) (w : World) :
  entropy (cleaned env ps w) = entropy w.
Proof.
  revert w. induction ps as [|p ps IH]; intros w; [reflexivity|].
  unfold cleaned in *. cbn [fold_left]. rewrite IH. unfold unlink_attempt.
  destruct (files w !! p); [destruct (unlinkError env p w)|]; reflexivity.
Qed.

Lemma unlink_targets_app (a b : list Event) :
  unlink_targets (a ++ b) = unlink_targets a ++ unlink_targets b.
Proof.
  induction a as [|[] a IH]; cbn [app unlink_targets]; rewrite ?IH; reflexivity.
Qed.

Lemma failed_unlinks_app (a b : list Event) :
  failed_unlinks (a ++ b) = failed_unlinks a ++ failed_unlinks b.
Proof.
  induction a as [|[?|? []|?|?] a IH]; cbn [app failed_unlinks]; rewrite ?IH;
    reflexivity.
Qed.

Lemma spawn_calls_app (a b : list Event) :
  spawn_calls (a ++ b) = spawn_calls a ++ spawn_calls b.
Proof.
  induction a as [|[] a IH]; cbn [app spawn_calls]; rewrite ?IH; reflexivity.
Qed.

Lemma write_calls_app (a b : list Event) :
  write_calls (a ++ b) = write_calls a ++ write_calls b.
Proof.
  induction a as [|[] a IH]; cbn [app write_calls]; rewrite ?IH; reflexivity.
Qed.

Lemma console_lines_app (a b : list Event) :
  console_lines (a ++ b) = console_lines a ++ console_lines b.
Proof.
  induction a as [|[] a IH]; cbn [app console_lines]; rewrite ?IH; reflexivity.
Qed.

Lemma unlink_targets_cleanup (ps : list jsstring) (w : World) :
  unlink_targets (cleanup_events env ps w) = ps.
Proof.
  revert w. induction ps as [|p ps IH]; intros w; [reflexivity|].
  cbn [cleanup_events]. rewrite unlink_targets_app, IH.
  unfold unlink_events.
  destruct (files w !! p); [destruct (unlinkError env p w)|]; reflexivity.
Qed.

Lemma spawn_calls_cleanup (ps : list jsstring) (w : World) :
  spawn_calls (cleanup_events env ps w) = [].
Proof.
  revert w. induction ps as [|p ps IH]; intros w; [reflexivity|].
  cbn [cleanup_events]. rewrite spawn_calls_app, IH.
  unfold unlink_events.
  destruct (files w !! p); [destruct (unlinkError env p w)|]; reflexivity.
Qed.

Lemma write_calls_cleanup (ps : list jsstring) (w : World) :
  write_calls (cleanup_events env ps w) = [].
Proof.
  revert w. induction ps as [|p ps IH]; intros w; [reflexivity|].
  cbn [cleanup_events]. rewrite write_calls_app, IH.
  unfold unlink_events.
  destruct (files w !! p); [destruct (unlinkError env p w)|]; reflexivity.
Qed.

(** Every failed deletion is followed by its console line; a deletion
    that succeeds logs nothing. *)
Lemma console_lines_cleanup (ps : list jsstring) (w : World) :
  console_lines (cleanup_events env ps w)
  = List.map (fun p => lit "Failed to delete temp file " ++ p ++ lit ":")
      (failed_unlinks (cleanup_events env ps w)).
Proof.
  revert w. induction ps as [|p ps IH]; intros w; [reflexivity|].
  cbn [cleanup_events].
  rewrite console_lines_app, failed_unlinks_app, List.map_app, IH. f_equal.
  unfold unlink_events.
  destruct (files w !! p); [destruct (unlinkError env p w)|]; reflexivity.
Qed.

Lemma failed_unlinks_In (evs : list Event) (p : jsstring) (e : Exn) :
  In (EUnlink p (Some e)) evs -> In p (failed_unlinks evs).
Proof.
  induction evs as [|ev evs IH]; [intros []|].
  intros [->|H]; [now left|].
  destruct ev as [?|? []|?|?]; cbn [failed_unlinks]; auto. right. auto.
Qed.

(** X1: [cleanupFiles] never throws and keeps the caller's locals and
    the clock; it attempts the deletion of each listed path once, in
    the order of the list, and makes no other call than these deletions
    and one console line per failed deletion; afterwards a listed file
    is gone unless its deletion threw, and every other file is as it
    was. *)
Theorem cleanupFiles_deletes_listed_files_only {L : Type}
    (filePaths : list jsstring) (l : L) (w : World) :
  exists w' calls,
    cleanupFiles env filePaths l w = (Normal tt, l, w') /\
    clock w' = clock w /\
    trace w' = trace w ++ calls /\
    unlink_targets calls = filePaths /\
    spawn_calls calls = [] /\ write_calls calls = [] /\
    console_lines calls
    = List.map (fun p => lit "Failed to delete temp file " ++ p ++ lit ":")
        (failed_unlinks calls) /\
    (forall p, In p filePaths ->
       files w' !! p = None \/ In p (failed_unlinks calls)) /\
    (forall q, ~ In q filePaths -> files w' !! q = files w !! q).
Proof.
  exists (cleaned env filePaths w), (cleanup_events env filePaths w).
  split; [apply cleanupFiles_eq|].
  split; [apply clock_cleaned|].
  split; [apply trace_cleaned|].
  split; [apply unlink_targets_cleanup|].
  split; [apply spawn_calls_cleanup|].
  split; [apply write_calls_cleanup|].
  split; [apply console_lines_cleanup|].
  split; [|intros q; apply cleaned_other].
  intros p Hp. destruct (cleaned_gone_or_failed env filePaths w p Hp) as [H|[e He]].
  - now left.
  - right. now apply (failed_unlinks_In _ p e).
Qed.

End CleanupMore.

(** ** The run phase and the exceptions *)

Lemma hrtime_roundtrip (c : Z) :
  c / 1000000000 * 1000000000 + c mod 1000000000 = c.
Proof. pose proof (Z.div_mod c 1000000000 ltac:(lia)). lia. Qed.

Ltac unfold_plans :=
  cbv beta iota zeta delta
    [runStage scriptPlan compiledPlan sourceFile option_map javaSource
     javaClass javacCommand javaCommand cppSource cppBinary gppCommand
     cp_source cp_compile cp_output cp_run killed_by_deadline].

(** Case analysis on the hypothesis [H] that says a plan or stage is
    defined; the equations found are then used in the goal. *)
Ltac unfold_plans_in H :=
  cbv beta iota zeta delta
    [runStage scriptPlan compiledPlan sourceFile option_map javaSource
     javaClass javacCommand javaCommand cppSource cppBinary gppCommand
     cp_source cp_compile cp_output cp_run killed_by_deadline] in H.

Ltac open_stage H :=
  unfold_plans_in H;
  repeat match type of H with
         | context [switch_language ?l] =>
             destruct (switch_language l) as [[]|] eqn:?;
             unfold_plans_in H; try discriminate H
         | context [regex_exec ?p ?c] =>
             destruct (regex_exec p c) eqn:?;
             unfold_plans_in H; try discriminate H
         | context [match writeError ?e ?p ?w with _ => _ end] =>
             destruct (writeError e p w) eqn:?;
             unfold_plans_in H; try discriminate H
         | context [match spawnError ?e ?c ?w with _ => _ end] =>
             destruct (spawnError e c w) eqn:?;
             unfold_plans_in H; try discriminate H
         | context [match p_error ?o with _ => _ end] =>
             destruct (p_error o) eqn:?;
             unfold_plans_in H; try discriminate H
         end.

Ltac use_equations :=
  repeat match goal with
         | E : ?x = _ |- context [match ?x with _ => _ end] =>
             rewrite E; unfold_engine
         end.

Section RunPhase.

Variable env : Env.

#[local] Opaque lit.

(** X2: once a request is ready to run (source written, and compiled
    without error for Java and C++) and the run command is spawned, the
    result is decided by the process alone: a clean exit gives success
    with the standard output as it is, untrimmed; an error gives
    ["Execution timed out"] when the process was killed with SIGTERM and
    otherwise the standard error, or the error's message when that is
    empty; the time is counted from the start of the invocation, and the
    files of the request are then handed to [cleanupFiles]. *)
Theorem run_phase_decides_result (code language : jsstring) (w : World)
    (filesToCleanup : list jsstring) (commandToRun : jsstring) (w1 : World) :
  let o := child env commandToRun MAX_EXECUTION_TIME w1 in
  let w2 := ran env commandToRun MAX_EXECUTION_TIME w1 in
  let t := round_ns (clock w2 - clock w) in
  runStage env code language w = Some (filesToCleanup, commandToRun, w1) ->
  spawnError env commandToRun w1 = None ->
  executeCode env code language w =
    (Normal
       match p_error o with
       | None =>
           {| success := true; output := Some (p_stdout o); error := None;
              executionTime := Some t |}
       | Some e =>
           {| success := false; output := None;
              error := Some (if killed_by_deadline e
                             then lit "Execution timed out"
                             else or_else (p_stderr o) (err_message e));
              executionTime := Some t |}
       end,
     cleaned env filesToCleanup w2).
Proof.
  intros o w2 t Hrs Hs. subst o w2 t. unfold round_ns, killed_by_deadline.
  open_stage Hrs; injection Hrs as <- <- <-.
  all: unfold_engine; use_equations.
  all: rewrite ?Hs; unfold_engine.
  all: repeat
         match goal with
         | |- context [match p_error ?o with _ => _ end] =>
             destruct (p_error o) eqn:?; unfold_engine
         | |- context [if ?b then _ else _] => destruct b eqn:?; unfold_engine
         end.
  all: rewrite ?(cleanupFiles_eq env); cbn [app].
  all: cbn [clock next_entropy]; rewrite ?hrtime_roundtrip; reflexivity.
Qed.

(** X3: when the run command cannot be spawned and [exec] throws, the
    exception is caught: the request fails with the exception's message
    and zero execution time, and the files of the request are still
    handed to [cleanupFiles]. *)
Theorem run_spawn_exception_cleans_up (code language : jsstring) (w : World)
    (filesToCleanup : list jsstring) (commandToRun : jsstring) (w1 : World)
    (e : Exn) :
  runStage env code language w = Some (filesToCleanup, commandToRun, w1) ->
  spawnError env commandToRun w1 = Some e ->
  executeCode env code language w =
    (Normal {| success := false; output := None;
               error := Some (message e); executionTime := Some 0 |},
     cleaned env filesToCleanup
       (record (ESpawn commandToRun MAX_EXECUTION_TIME (Some e)) w1)).
Proof.
  intros Hrs Hs.
  open_stage Hrs; injection Hrs as <- <- <-.
  all: unfold_engine; use_equations.
  all: rewrite ?Hs; unfold_engine.
  all: cbn [app length Nat.ltb Nat.leb]; rewrite (cleanupFiles_eq env);
    reflexivity.
Qed.

(** X4: when writing the source file throws, the request fails with the
    exception's message and zero execution time; the write attempt is
    the only call made: no process is spawned and nothing is deleted.
    Every other file is as it was, and what the failed write left at
    the path (an empty or partly written file, once the file could be
    opened) stays there. *)
Theorem write_exception_is_the_result (code language : jsstring) (w : World)
    (filePath : jsstring) (e : Exn) :
  sourceFile env code language w = Some filePath ->
  writeError env filePath (next_entropy w) = Some e ->
  exists w',
    executeCode env code language w =
      (Normal {| success := false; output := None;
                 error := Some (message e); executionTime := Some 0 |}, w') /\
    trace w' = trace w ++ [EWrite filePath code (Some e)] /\
    clock w' = clock w /\
    (forall q, q <> filePath -> files w' !! q = files w !! q) /\
    files w' !! filePath
    = match writeResidue env filePath code (next_entropy w) with
      | Some d => Some d
      | None => files w !! filePath
      end.
Proof.
  intros Hsrc Hw.
  open_stage Hsrc; injection Hsrc as <-.
  all: unfold_engine; use_equations.
  all: rewrite ?Hw; unfold_engine.
  all: cbn [length Nat.ltb Nat.leb]; unfold_engine.
  all: eexists; split; [reflexivity|].
  all: split; [rewrite trace_write_failed; reflexivity|].
  all: split; [rewrite clock_write_failed; reflexivity|].
  all: split;
    [intros q Hq; rewrite files_write_failed_other by exact Hq; reflexivity|].
  all: unfold write_failed.
  all: match goal with
       | |- context [writeResidue ?e0 ?p0 ?d0 ?w0] =>
           destruct (writeResidue e0 p0 d0 w0)
       end.
  all: cbn [files set_files record next_entropy];
    rewrite ?lookup_insert_eq; reflexivity.
Qed.

(** X5: when the source of a Java or C++ request is written but the
    compiler cannot be spawned and [exec] throws, the request fails with
    the exception's message, and no deletion is attempted:
    [filesToCleanup] is still empty, and the source file stays on the
    disk. *)
Theorem compile_spawn_exception_leaves_source (code language : jsstring)
    (w : World) (pl : CompiledPlan) (e : Exn) :
  let w1 := wrote env (cp_source pl) code (next_entropy w) in
  compiledPlan env code language w = Some pl ->
  writeError env (cp_source pl) (next_entropy w) = None ->
  spawnError env (cp_compile pl) w1 = Some e ->
  exists w',
    executeCode env code language w =
      (Normal {| success := false; output := None;
                 error := Some (message e); executionTime := Some 0 |}, w') /\
    trace w' = trace w ++ [EWrite (cp_source pl) code None;
                           ESpawn (cp_compile pl) MAX_EXECUTION_TIME (Some e)] /\
    files w' !! cp_source pl = Some code.
Proof.
  intros w1 Hpl Hw Hs. subst w1.
  open_stage Hpl; injection Hpl as <-.
  all: unfold_plans_in Hw; unfold_plans_in Hs; unfold_plans.
  all: unfold_engine; use_equations.
  all: rewrite ?Hw; unfold_engine; rewrite ?Hs; unfold_engine.
  all: cbn [length Nat.ltb Nat.leb]; unfold_engine.
  all: eexists; split; [reflexivity|]; split;
    [cbn [trace wrote record next_entropy advance set_files];
     rewrite <- app_assoc; reflexivity|].
  all: cbn [files wrote record next_entropy advance set_files];
    apply lookup_insert_eq.
Qed.

End RunPhase.

(** ** What a request touches *)

#[local] Opaque lit.

Ltac calls_norm env :=
  cbn [write_calls spawn_calls unlink_targets];
  rewrite ?(write_calls_cleanup env), ?(spawn_calls_cleanup env),
    ?(unlink_targets_cleanup env).

(** X6: whatever the request and whatever fails, one call of
    [executeCode] draws one random identifier, writes at most one file
    (the source, with the code as its content), spawns at most two
    processes, each under the deadline of 5000 ms, and attempts to
    delete only files of its own artifact set. *)
Theorem executeCode_footprint (env : Env) (code language : jsstring)
    (w : World) :
  exists r w' calls,
    executeCode env code language w = (Normal r, w') /\
    trace w' = trace w ++ calls /\
    entropy w' = S (entropy w) /\
    (write_calls calls = [] \/
     exists filePath,
       sourceFile env code language w = Some filePath /\
       write_calls calls = [(filePath, code)]) /\
    (length (spawn_calls calls) <= 2)%nat /\
    Forall (fun ct => snd ct = 5000) (spawn_calls calls) /\
    Forall (fun p => In p (artifactSet env code language w))
      (unlink_targets calls).
Proof.
  unfold artifactSet. unfold_plans. unfold_engine.
  destruct (switch_language language) as [[]|] eqn:Hl; unfold_engine;
    unfold_plans.
  3: destruct (regex_exec publicClassRe code) as [m|] eqn:Hm; unfold_engine;
    unfold_plans.
  all: repeat (step; unfold_engine).
  all: do 3 eexists; split; [reflexivity|].
  all: split; [first [trace_norm; reflexivity | symmetry; apply app_nil_r]|].
  all: split; [rewrite ?(entropy_cleaned env), ?entropy_write_failed; reflexivity|].
  all: calls_norm env.
  all: split; [first [left; reflexivity | right; eexists; split; reflexivity]|].
  all: split; [cbn [length]; lia|].
  all: split; [repeat constructor|].
  all: cbn [app];
    repeat (apply List.Forall_cons; [cbn [In]; auto|]); apply List.Forall_nil.
Qed.

(** X7: when the child processes leave the disk alone, a call of
    [executeCode] changes no file outside its artifact set: every other
    path holds after the call what it held before. *)
Theorem executeCode_leaves_other_files (env : Env) (code language : jsstring)
    (w : World) :
  children_leave_disk env ->
  exists r w',
    executeCode env code language w = (Normal r, w') /\
    forall q, ~ In q (artifactSet env code language w) ->
      files w' !! q = files w !! q.
Proof.
  intros Hchild. unfold artifactSet. unfold_plans. unfold_engine.
  destruct (switch_language language) as [[]|] eqn:Hl; unfold_engine;
    unfold_plans.
  3: destruct (regex_exec publicClassRe code) as [m|] eqn:Hm; unfold_engine;
    unfold_plans.
  all: repeat (step; unfold_engine).
  all: do 2 eexists; split; [reflexivity|].
  all: intros q Hq; cbn [In app] in Hq.
  all: rewrite ?(cleaned_other env) by (cbn [In app]; tauto).
  all: rewrite ?files_write_failed_other by (intros ->; tauto).
  all: cbn [files ran wrote record next_entropy advance set_files].
  all: rewrite ?Hchild.
  all: rewrite ?lookup_insert_ne by tauto.
  all: reflexivity.
Qed.

#[local] Transparent lit.

(** X8: a Java request does not depend on the random identifier: with
    any other source of identifiers the result and the world after the
    call are the same, the files being named after the class.  Two
    requests with the same class name therefore use the same files. *)
Theorem java_request_ignores_random_identifier (env : Env)
    (h : nat -> jsstring) (code : jsstring) (w : World) :
  executeCode (with_randomHex h env) code (lit "java") w
  = executeCode env code (lit "java") w.
Proof.
  unfold executeCode, executeCode_body, prepare.
  rewrite switch_java. reflexivity.
Qed.

(** ** The class name of a Java source *)

(** X9: the class name taken from a Java source is a non-empty run of
    word characters that follows [public], white space, [class] and
    white space in the source, and it is the whole run: the source does
    not go on with a word character.  It holds no slash, backslash or
    dot, so the file names built from it stay inside the execution
    directory. *)
Theorem java_class_name_is_a_whole_word (code : jsstring) (m : rmatch) :
  regex_exec publicClassRe code = Some m ->
  exists ws1 ws2,
    code = m_before m ++ lit "public" ++ ws1 ++ lit "class" ++ ws2
             ++ group1 m ++ m_after m /\
    ws1 <> [] /\ forallb is_space ws1 = true /\
    ws2 <> [] /\ forallb is_space ws2 = true /\
    group1 m <> [] /\ forallb is_word (group1 m) = true /\
    stops is_word (m_after m) /\
    (forall c, In c (group1 m) -> c <> 47%N /\ c <> 92%N /\ c <> 46%N).
Proof. exact (class_name_capture code m). Qed.

(** * Further properties of the test harness *)

Section HarnessMore.

Variable env : Env.

(** One turn of the loop does not look at the results gathered so far. *)
Lemma testBody_appends (code language : jsstring) (t : TestCase.t)
    (results : list TestResult) (w : World) :
  exists tr w',
    testBody env code language t [] w = (Normal tt, [tr], w') /\
    testBody env code language t results w = (Normal tt, results ++ [tr], w').
Proof.
  unfold_harness.
  destruct (switch_language language) as [[]|]; unfold_harness.
  1-4: destruct (JSON_stringify (TestCase.input t)) as [arg|e]; unfold_harness.
  1, 3, 5, 7:
    match goal with
    | |- context [executeCode ?e ?c ?l ?w0] =>
        destruct (executeCode_returns e c l w0)
          as (r & w1 & -> & [Hout Herr])
    end;
    unfold_harness;
    destruct (success r) eqn:Hs;
    [ destruct (proj2 Hout eq_refl) as [out Ho]; rewrite Ho; unfold_harness;
      destruct (String_ (TestCase.output t)); unfold_harness
    | ].
  all: do 2 eexists; split; reflexivity.
Qed.

Lemma forEach_app {L A : Type} (xs ys : list A) (f : A -> M L unit)
    (l : L) (w : World) :
  forEach (xs ++ ys) f l w
  = match forEach xs f l w with
    | (Normal _, l', w') => forEach ys f l' w'
    | (Throw e, l', w') => (Throw e, l', w')
    end.
Proof.
  revert l w. induction xs as [|x xs IH]; intros l w; [reflexivity|].
  cbn [app forEach]. unfold bind.
  destruct (f x l w) as [[[[]|e] l1] w1]; [apply IH|reflexivity].
Qed.

Lemma forEach_testBody_appends (code language : jsstring)
    (tests : list TestCase.t) (results : list TestResult) (w : World) :
  exists rs w',
    forEach tests (testBody env code language) [] w = (Normal tt, rs, w') /\
    forEach tests (testBody env code language) results w
      = (Normal tt, results ++ rs, w').
Proof.
  revert results w. induction tests as [|t tests IH]; intros results w.
  - exists [], w. rewrite app_nil_r. split; reflexivity.
  - cbn [forEach]. unfold bind.
    destruct (testBody_appends code language t results w)
      as (tr & w1 & -> & ->).
    destruct (IH [tr] w1) as (rs & w2 & E & ->).
    destruct (IH (results ++ [tr]) w1) as (rs2 & w2' & E2 & ->).
    rewrite E in E2. injection E2 as <- <-.
    exists (tr :: rs), w2. rewrite <- app_assoc. split; reflexivity.
Qed.

(** X10: the cases are handled one after the other: running two lists
    of cases in a row gives the results of the first list followed by
    those of the second, the second list starting in the world the
    first one left. *)
Theorem runTestCases_in_sequence (code language : jsstring)
    (first second : list TestCase.t) (w : World) :
  exists r1 w1 r2 w2,
    runTestCases env code language first w = (Normal r1, w1) /\
    runTestCases env code language second w1 = (Normal r2, w2) /\
    runTestCases env code language (first ++ second) w
      = (Normal (r1 ++ r2), w2).
Proof.
  destruct (forEach_testBody_appends code language first [] w)
    as (r1 & w1 & E1 & _).
  destruct (forEach_testBody_appends code language second r1 w1)
    as (r2 & w2 & E2 & E2').
  exists r1, w1, r2, w2. unfold runTestCases.
  rewrite forEach_app, E1, E2, E2'. repeat split.
Qed.

Lemma runTestCases_default (code language : jsstring)
    (testCases : list TestCase.t) (w : World) :
  switch_language language = None ->
  runTestCases env code language testCases w
  = (Normal (List.map (unsupportedCase language) testCases), w).
Proof.
  intros H.
  assert (Hgen : forall results,
             forEach testCases (testBody env code language) results w
             = (Normal tt, results ++ List.map (unsupportedCase language) testCases, w)).
  { induction testCases as [|t ts IH]; intros results.
    - cbn [forEach List.map]. rewrite app_nil_r. reflexivity.
    - cbn [forEach List.map]. unfold bind at 1.
      replace (testBody env code language t results w)
        with (Normal tt, results ++ [unsupportedCase language t], w).
      + rewrite IH, <- app_assoc. reflexivity.
      + unfold_harness. rewrite H. reflexivity. }
  unfold runTestCases. rewrite Hgen. reflexivity.
Qed.

(** X11: with a language outside the four tags, [runTestCases] gives
    every case the same failure, naming the language, and does nothing
    else: no input is serialized, no file written, no process spawned,
    no random identifier drawn; the world is untouched. *)
Theorem runTestCases_unsupported_language (code language : jsstring)
    (testCases : list TestCase.t) (w : World) :
  ~ In language supported_tags ->
  runTestCases env code language testCases w
  = (Normal (List.map (unsupportedCase language) testCases), w).
Proof.
  intros H. apply runTestCases_default, switch_language_default, H.
Qed.

(** X12: when [JSON.stringify] throws on the input of a case, that case
    is recorded as a failure carrying the exception's message, nothing
    is executed for it, and the remaining cases run as if it had not
    been there. *)
Theorem unserializable_case_is_isolated (code language : jsstring)
    (t : TestCase.t) (rest : list TestCase.t) (w : World) (e : Exn) :
  In language supported_tags ->
  JSON_stringify (TestCase.input t) = Throw e ->
  exists rs w',
    runTestCases env code language rest w = (Normal rs, w') /\
    runTestCases env code language (t :: rest) w
      = (Normal (thrownCase e t :: rs), w').
Proof.
  intros Hl He.
  assert (Hbody : testBody env code language t [] w
                  = (Normal tt, [thrownCase e t], w)).
  { unfold_harness.
    destruct (switch_language language) as [[]|] eqn:Hs;
      rewrite ?He; try reflexivity.
    exfalso. revert Hs. unfold switch_language, supported_tags in *.
    cbn [In] in Hl. repeat case_decide; try discriminate.
    intuition congruence. }
  destruct (forEach_testBody_appends code language rest [thrownCase e t] w)
    as (rs & w' & E & E').
  exists rs, w'. unfold runTestCases. rewrite E. split; [reflexivity|].
  cbn [forEach]. unfold bind at 1. rewrite Hbody, E'. reflexivity.
Qed.

End HarnessMore.

(** ** The substituted entry block *)

Lemma dollar_free_app (a b : jsstring) :
  dollar_free (a ++ b) <-> dollar_free a /\ dollar_free b.
Proof.
  unfold dollar_free. rewrite forallb_app. apply andb_true_iff.
Qed.

Lemma getSubstitution_plain (m : rmatch) (a rest : jsstring) :
  dollar_free a -> getSubstitution m (a ++ rest) = a ++ getSubstitution m rest.
Proof.
  unfold dollar_free. induction a as [|c a IH]; intros Ha; [reflexivity|].
  cbn [forallb] in Ha. apply andb_prop in Ha as [Hc Ha].
  cbn [app getSubstitution].
  destruct (c =? 36)%N; [discriminate|]. now rewrite IH.
Qed.

Lemma getSubstitution_dollar_free (m : rmatch) (a : jsstring) :
  dollar_free a -> getSubstitution m a = a.
Proof.
  intros Ha. rewrite <- (app_nil_r a) at 1.
  rewrite getSubstitution_plain by exact Ha. cbn [getSubstitution].
  apply app_nil_r.
Qed.

Lemma getSubstitution_special (m : rmatch) (d : N) (x rest : jsstring) :
  dollar_expansion m d = Some x ->
  getSubstitution m (36%N :: d :: rest) = x ++ getSubstitution m rest.
Proof.
  unfold dollar_expansion. cbn [getSubstitution]. rewrite N.eqb_refl.
  destruct (d =? 36)%N; [now intros [= <-]|].
  destruct (d =? 38)%N; [now intros [= <-]|].
  destruct (d =? 96)%N; [now intros [= <-]|].
  destruct (d =? 39)%N; [now intros [= <-]|discriminate].
Qed.

Lemma generatedMain_parts (language : jsstring) (re : list item) :
  mainPattern language = Some re ->
  exists pre post,
    dollar_free pre /\ dollar_free post /\
    forall arg,
      generatedMain language arg = pre ++ arg ++ post /\
      forall (L : Type) (code : jsstring) (t : TestCase.t) (l : L) (w : World),
        JSON_stringify (TestCase.input t) = Normal arg ->
        modifyCode code language t l w
        = (Normal (Some (replace re (pre ++ arg ++ post) code)), l, w).
Proof.
  intros Hre. unfold generatedMain.
  destruct (mainPattern_cases _ _ Hre) as [[Hl ->]|[Hl ->]]; rewrite Hl.
  - exists (lit "public static void main(String[] args) { System.out.println(solution("),
      (lit ")); }").
    repeat split. intros L code t l w Harg.
    unfold_harness. rewrite Hl, Harg. reflexivity.
  - exists (lit "int main() { cout << solution("),
      (lit ") << endl; return 0; }").
    repeat split. intros L code t l w Harg.
    unfold_harness. rewrite Hl, Harg. reflexivity.
Qed.

(** X13: for a Java or C++ case whose source has a match of the entry
    pattern and whose serialized input holds no dollar sign, the rewrite
    replaces exactly the first match by the generated entry block and
    keeps the text before and after it. *)
Theorem entry_block_replaces_the_match {L : Type} (code language : jsstring)
    (t : TestCase.t) (l : L) (w : World) (re : list item) (m : rmatch)
    (arg : jsstring) :
  mainPattern language = Some re ->
  regex_exec re code = Some m ->
  JSON_stringify (TestCase.input t) = Normal arg ->
  dollar_free arg ->
  code = m_before m ++ m_text m ++ m_after m /\
  modifyCode code language t l w
  = (Normal (Some (m_before m ++ generatedMain language arg ++ m_after m)), l, w).
Proof.
  intros Hre Hm Harg Hfree.
  split; [apply (regex_exec_sound _ _ _ Hm)|].
  destruct (generatedMain_parts language re Hre)
    as (pre & post & Hpre & Hpost & Hparts).
  destruct (Hparts arg) as [-> Hmod].
  rewrite (Hmod L code t l w Harg). unfold replace. rewrite Hm.
  rewrite getSubstitution_dollar_free; [reflexivity|].
  apply dollar_free_app. split; [exact Hpre|].
  apply dollar_free_app. split; assumption.
Qed.

(** X14: a dollar sign in the serialized input is read by
    [String.prototype.replace] as a replacement pattern: where the input
    holds a dollar sign followed by a dollar sign, an ampersand, a back
    quote or a quote, the generated entry block holds a single dollar
    sign, the old entry block, the text before it or the text after it
    instead, so the program is called with another input than the
    case's. *)
Theorem dollar_in_input_is_expanded {L : Type} (code language : jsstring)
    (t : TestCase.t) (l : L) (w : World) (re : list item) (m : rmatch)
    (a b x : jsstring) (d : N) :
  mainPattern language = Some re ->
  regex_exec re code = Some m ->
  JSON_stringify (TestCase.input t) = Normal (a ++ 36%N :: d :: b) ->
  dollar_free a -> dollar_free b ->
  dollar_expansion m d = Some x ->
  modifyCode code language t l w
  = (Normal (Some (m_before m ++ generatedMain language (a ++ x ++ b)
                     ++ m_after m)), l, w).
Proof.
  intros Hre Hm Harg Ha Hb Hx.
  destruct (generatedMain_parts language re Hre)
    as (pre & post & Hpre & Hpost & Hparts).
  destruct (Hparts (a ++ x ++ b)) as [-> _].
  destruct (Hparts (a ++ 36%N :: d :: b)) as [_ Hmod].
  rewrite (Hmod L code t l w Harg). unfold replace. rewrite Hm.
  rewrite (getSubstitution_plain m pre _ Hpre).
  rewrite <- (app_assoc a (36%N :: d :: b) post).
  rewrite (getSubstitution_plain m a _ Ha).
  change ((36%N :: d :: b) ++ post) with (36%N :: d :: b ++ post).
  rewrite (getSubstitution_special m d x _ Hx).
  rewrite (getSubstitution_plain m b _ Hb).
  rewrite (getSubstitution_dollar_free m post Hpost).
  rewrite <- !app_assoc. reflexivity.
Qed.

(** * The identifiers of a run of cases *)

Lemma executeCode_entropy (env : Env) (code language : jsstring) (w : World) :
  exists r w',
    executeCode env code language w = (Normal r, w') /\
    well_formed r /\ entropy w' = S (entropy w).
Proof.
  unfold_engine.
  repeat (step; unfold_engine).
  all: do 2 eexists; (split; [reflexivity|]).
  all: split; [|rewrite ?(entropy_cleaned env), ?entropy_write_failed; reflexivity].
  all: split; split; cbv [output error success];
    first [done | intros _; eauto | intros [? ?]; done].
Qed.

Lemma testBody_entropy (env : Env) (code language : jsstring) (t : TestCase.t)
    (results : list TestResult) (w : World) :
  In language supported_tags ->
  has_bigint (TestCase.input t) = false ->
  exists tr w',
    testBody env code language t results w = (Normal tt, results ++ [tr], w') /\
    entropy w' = S (entropy w).
Proof.
  intros Hl Ht. destruct (JSON_stringify_total _ Ht) as [arg Harg].
  unfold_harness. rewrite Harg.
  destruct (switch_language language) as [[]|] eqn:Hs; unfold_harness.
  1-4:
    match goal with
    | |- context [executeCode ?e ?c ?l ?w0] =>
        destruct (executeCode_entropy e c l w0)
          as (r & w1 & -> & [Hout Herr] & Hent)
    end;
    unfold_harness;
    destruct (success r) eqn:Hsucc;
    [ destruct (proj2 Hout eq_refl) as [out Ho]; rewrite Ho; unfold_harness;
      destruct (String_ (TestCase.output t)); unfold_harness
    | ];
    do 2 eexists; (split; [reflexivity|exact Hent]).
  exfalso. revert Hs. unfold switch_language, supported_tags in *.
  cbn [In] in Hl. repeat case_decide; try discriminate.
  intuition congruence.
Qed.

(** X19: in a supported language and with inputs that
    [JSON.stringify] accepts, every case reaches [executeCode] and draws
    one random identifier of its own: a run of cases draws as many
    identifiers as there are cases. *)
Theorem runTestCases_draws_one_identifier_per_case (env : Env)
    (code language : jsstring) (testCases : list TestCase.t) (w : World) :
  In language supported_tags ->
  Forall (fun t => has_bigint (TestCase.input t) = false) testCases ->
  exists results w',
    runTestCases env code language testCases w = (Normal results, w') /\
    entropy w' = (entropy w + length testCases)%nat.
Proof.
  intros Hl Hall.
  assert (Hgen : forall results w0,
             exists rs w',
               forEach testCases (testBody env code language) results w0
               = (Normal tt, rs, w') /\
               entropy w' = (entropy w0 + length testCases)%nat).
  { induction Hall as [|t ts Ht Hts IH]; intros results w0.
    - exists results, w0. split; [reflexivity|]. cbn [length]. lia.
    - cbn [forEach]. unfold bind at 1.
      destruct (testBody_entropy env code language t results w0 Hl Ht)
        as (tr & w1 & -> & Hent).
      destruct (IH (results ++ [tr]) w1) as (rs & w2 & -> & Hent2).
      exists rs, w2. split; [reflexivity|]. cbn [length]. lia. }
  destruct (Hgen [] w) as (rs & w' & E & Hent).
  exists rs, w'. unfold runTestCases. rewrite E. split; [reflexivity|exact Hent].
Qed.

(** * The grading of a submission *)

Lemma filter_all_length {A : Type} (f : A -> bool) (l : list A) :
  length (List.filter f l) = length l <-> Forall (fun x => f x = true) l.
Proof.
  induction l as [|x l IH]; cbn [List.filter length].
  - split; [constructor|reflexivity].
  - destruct (f x) eqn:Hx; cbn [length].
    + rewrite List.Forall_cons_iff, <- IH. split; [intros [= ->]; auto|].
      intros [_ ->]. reflexivity.
    + pose proof (List.filter_length_le f l) as Hle. split; [lia|].
      intros Hall. apply List.Forall_inv in Hall. congruence.
Qed.

Lemma case_outcome_passed (tr : TestResult) :
  case_outcome tr -> (ToBoolean (testPassed tr) = true <-> passed tr).
Proof.
  intros [Hs Hf]. unfold passed. destruct (success (result tr)) eqn:E.
  - destruct (Hs eq_refl) as (out & str & Ho & Hstr & -> & _). cbn [ToBoolean].
    rewrite bool_decide_eq_true. split.
    + intros H. exists out, str. auto.
    + intros (out' & str' & _ & Ho' & Hstr' & H). congruence.
  - rewrite (Hf eq_refl). cbn [ToBoolean]. split; [discriminate|].
    intros (? & ? & ? & _). discriminate.
Qed.

Lemma fold_time_zero (rs : list TestResult) (acc : Z) :
  Forall (fun tr => executionTime (result tr) = None) rs ->
  fold_left (fun sum test => sum + or_zero (executionTime (result test))) rs acc
  = acc.
Proof.
  revert acc. induction rs as [|tr rs IH]; intros acc H; [reflexivity|].
  apply List.Forall_cons_iff in H as [Ht H]. cbn [fold_left].
  rewrite Ht. cbn [or_zero]. rewrite Z.add_0_r. now apply IH.
Qed.

(** X15: the handler compares the number of passed cases with the
    number of results: a submission is graded a success exactly when
    every result carries [testPassed] true; a result without
    [testPassed] (a failed or unexecuted case) counts as not passed, and
    the number of passed cases never exceeds the number of results. *)
Theorem submission_succeeds_iff_every_result_passed
    (testResults : list TestResult) :
  let s := submissionResult testResults in
  (Submission.success s = true
   <-> Forall (fun tr => testPassed tr = Some true) testResults) /\
  (Submission.passedTests s <= Submission.totalTests s)%nat.
Proof.
  cbn [submissionResult Submission.success Submission.passedTests
       Submission.totalTests].
  split; [|apply List.filter_length_le].
  rewrite Nat.eqb_eq, filter_all_length.
  split; apply List.Forall_impl; intros tr; destruct (testPassed tr) as [[]|];
    cbn [ToBoolean]; congruence.
Qed.

(** X16: grading what [runTestCases] returns never fails; the total is
    the number of cases of the problem, and the submission is graded a
    success exactly when every case ran to a clean exit and printed the
    string form of the expected value, white space at both ends apart
    (a case whose expected value [String] cannot convert does not
    pass). *)
Theorem graded_submission_passes_iff_cases_pass (env : Env)
    (code language : jsstring) (testCases : list TestCase.t) (w : World) :
  exists s w',
    gradeSubmission env code language testCases w = (Normal s, w') /\
    runTestCases env code language testCases w
      = (Normal (Submission.testResults s), w') /\
    List.map test (Submission.testResults s) = testCases /\
    Submission.totalTests s = length testCases /\
    (Submission.passedTests s <= length testCases)%nat /\
    (Submission.success s = true <-> Forall passed (Submission.testResults s)).
Proof.
  destruct (forEach_testBody env code language testCases [] w)
    as (rs & w' & E & Hm & Hc).
  assert (Hrun : runTestCases env code language testCases w = (Normal rs, w')).
  { unfold runTestCases. rewrite E. reflexivity. }
  assert (Hlen : length rs = length testCases).
  { rewrite <- Hm. now rewrite length_map. }
  exists (submissionResult rs), w'. unfold gradeSubmission. rewrite Hrun.
  cbn [submissionResult Submission.success Submission.passedTests
       Submission.totalTests Submission.testResults].
  repeat (split; [first [reflexivity | assumption]|]).
  split; [rewrite <- Hlen; apply List.filter_length_le|].
  rewrite Nat.eqb_eq, filter_all_length.
  clear E Hm Hrun Hlen. induction Hc as [|tr rs Ht Hc IH].
  - split; constructor.
  - rewrite !List.Forall_cons_iff, IH, (case_outcome_passed tr Ht). reflexivity.
Qed.

(** X17: a submission in a language outside the four tags, for a
    problem with at least one case, is graded a failure with no passed
    case and zero execution time, and grading it leaves the world
    untouched. *)
Theorem unsupported_language_submission_fails (env : Env)
    (code language : jsstring) (testCases : list TestCase.t) (w : World) :
  ~ In language supported_tags ->
  testCases <> [] ->
  exists s,
    gradeSubmission env code language testCases w = (Normal s, w) /\
    Submission.success s = false /\
    Submission.passedTests s = 0%nat /\
    Submission.totalTests s = length testCases /\
    Submission.executionTime s = 0.
Proof.
  intros Hl Hne. unfold gradeSubmission.
  rewrite (runTestCases_default env code language testCases w
             (switch_language_default _ Hl)).
  eexists. split; [reflexivity|].
  cbn [submissionResult Submission.success Submission.passedTests
       Submission.totalTests Submission.executionTime].
  assert (Hp : List.filter (fun test => ToBoolean (testPassed test))
                 (List.map (unsupportedCase language) testCases) = []).
  { clear. induction testCases as [|t ts IH]; [reflexivity|exact IH]. }
  rewrite Hp, length_map. cbn [length].
  split; [destruct testCases; [congruence|reflexivity]|].
  split; [reflexivity|]. split; [reflexivity|].
  apply fold_time_zero. clear.
  induction testCases as [|t ts IH]; constructor; [reflexivity|exact IH].
Qed.

(** * The reported time *)

Lemma round_ms_nonneg (d : Z) :
  0 <= d -> 0 <= round_ms (d / 1000000000, d mod 1000000000).
Proof.
  intros Hd. unfold round_ms. cbn [fst snd].
  pose proof (Z.div_pos d 1000000000 Hd ltac:(lia)) as Hq.
  pose proof (Z.mod_pos_bound d 1000000000 ltac:(lia)) as Hr.
  pose proof (Z.div_pos (d mod 1000000000 + 500000) 1000000 ltac:(lia)
                ltac:(lia)).
  lia.
Qed.

(** X18: every result of [executeCode] carries an execution time, and
    with a clock that does not run backwards it is never negative, nor
    does the call take the clock back. *)
Theorem execution_time_present_and_nonnegative (env : Env)
    (code language : jsstring) (w : World) :
  monotone_clock env ->
  exists r w' t,
    executeCode env code language w = (Normal r, w') /\
    executionTime r = Some t /\ 0 <= t /\ clock w <= clock w'.
Proof.
  intros [Hlat Hchild]. unfold_engine.
  repeat (step; unfold_engine).
  all: do 3 eexists; split; [reflexivity|]; split; [reflexivity|].
  all: rewrite ?(clock_cleaned env), ?clock_write_failed.
  all: cbn [clock ran wrote record next_entropy advance set_files].
  all: repeat match goal with
              | |- context [p_elapsed (child _ ?c ?t ?w0)] =>
                  lazymatch goal with
                  | _ : 0 <= p_elapsed (child _ c t w0) |- _ => fail
                  | _ => pose proof (Hchild c t w0)
                  end
              end.
  all: split; [|lia].
  all: try lia.
  all: rewrite ?hrtime_roundtrip; apply round_ms_nonneg; lia.
Qed.

(** * The properties at work on the example machines *)

Lemma run_phase_decides_result_witness :
  let env := quietEnv toolchain in
  let src := cppSource env (exampleId 0) in
  let bin := cppBinary env (exampleId 0) in
  let w1 := ran env (gppCommand env (exampleId 0)) MAX_EXECUTION_TIME
              (wrote env src cppProgram (next_entropy startWorld)) in
  runStage env cppProgram (lit "cpp") startWorld = Some ([src; bin], bin, w1) /\
  spawnError env bin w1 = None /\
  executeCode env cppProgram (lit "cpp") startWorld =
    (Normal {| success := true; output := Some (lit "42" ++ [10%N]);
               error := None; executionTime := Some 3000 |},
     cleaned env [src; bin] (ran env bin MAX_EXECUTION_TIME w1)).
Proof.
  intros env src bin w1.
  assert (Hrs : runStage env cppProgram (lit "cpp") startWorld
                = Some ([src; bin], bin, w1)) by reflexivity.
  assert (Hs : spawnError env bin w1 = None) by reflexivity.
  split; [exact Hrs|]. split; [exact Hs|].
  exact (run_phase_decides_result env cppProgram (lit "cpp") startWorld
           [src; bin] bin w1 Hrs Hs).
Defined.

Lemma run_spawn_exception_cleans_up_witness :
  let env := noProcessEnv in
  let filePath := path_join env (exampleId 0 ++ lit ".js") in
  let commandToRun := lit "node " ++ filePath in
  let w1 := wrote env filePath jsProgram (next_entropy startWorld) in
  runStage env jsProgram (lit "javascript") startWorld
    = Some ([filePath], commandToRun, w1) /\
  spawnError env commandToRun w1 = Some EAGAIN /\
  executeCode env jsProgram (lit "javascript") startWorld =
    (Normal {| success := false; output := None;
               error := Some (lit "spawn EAGAIN"); executionTime := Some 0 |},
     cleaned env [filePath]
       (record (ESpawn commandToRun MAX_EXECUTION_TIME (Some EAGAIN)) w1)).
Proof.
  intros env filePath commandToRun w1.
  assert (Hrs : runStage env jsProgram (lit "javascript") startWorld
                = Some ([filePath], commandToRun, w1)) by reflexivity.
  assert (Hs : spawnError env commandToRun w1 = Some EAGAIN) by reflexivity.
  split; [exact Hrs|]. split; [exact Hs|].
  exact (run_spawn_exception_cleans_up env jsProgram (lit "javascript")
           startWorld [filePath] commandToRun w1 EAGAIN Hrs Hs).
Defined.

Lemma write_exception_is_the_result_witness :
  let env := fullDiskEnv in
  let filePath := path_join env (exampleId 0 ++ lit ".py") in
  sourceFile env jsProgram (lit "python") startWorld = Some filePath /\
  writeError env filePath (next_entropy startWorld) = Some ENOSPC /\
  exists w',
    executeCode env jsProgram (lit "python") startWorld =
      (Normal {| success := false; output := None;
                 error := Some (message ENOSPC); executionTime := Some 0 |}, w') /\
    trace w' = trace startWorld ++ [EWrite filePath jsProgram (Some ENOSPC)] /\
    clock w' = clock startWorld /\
    (forall q, q <> filePath -> files w' !! q = files startWorld !! q) /\
    files w' !! filePath = Some [].
Proof.
  intros env filePath.
  assert (Hsrc : sourceFile env jsProgram (lit "python") startWorld
                 = Some filePath) by reflexivity.
  assert (Hw : writeError env filePath (next_entropy startWorld) = Some ENOSPC)
    by reflexivity.
  split; [exact Hsrc|]. split; [exact Hw|].
  exact (write_exception_is_the_result env jsProgram (lit "python") startWorld
           filePath ENOSPC Hsrc Hw).
Defined.

Lemma compile_spawn_exception_leaves_source_witness :
  let env := noProcessEnv in
  let pl := {| cp_source := cppSource env (exampleId 0);
               cp_compile := gppCommand env (exampleId 0);
               cp_output := cppBinary env (exampleId 0);
               cp_run := cppBinary env (exampleId 0) |} in
  let w1 := wrote env (cp_source pl) cppProgram (next_entropy startWorld) in
  compiledPlan env cppProgram (lit "cpp") startWorld = Some pl /\
  writeError env (cp_source pl) (next_entropy startWorld) = None /\
  spawnError env (cp_compile pl) w1 = Some EAGAIN /\
  exists w',
    executeCode env cppProgram (lit "cpp") startWorld =
      (Normal {| success := false; output := None;
                 error := Some (message EAGAIN); executionTime := Some 0 |}, w') /\
    trace w' = trace startWorld
                 ++ [EWrite (cp_source pl) cppProgram None;
                     ESpawn (cp_compile pl) MAX_EXECUTION_TIME (Some EAGAIN)] /\
    files w' !! cp_source pl = Some cppProgram.
Proof.
  intros env pl w1.
  assert (Hpl : compiledPlan env cppProgram (lit "cpp") startWorld = Some pl)
    by reflexivity.
  assert (Hw : writeError env (cp_source pl) (next_entropy startWorld) = None)
    by reflexivity.
  assert (Hs : spawnError env (cp_compile pl) w1 = Some EAGAIN) by reflexivity.
  split; [exact Hpl|]. split; [exact Hw|]. split; [exact Hs|].
  exact (compile_spawn_exception_leaves_source env cppProgram (lit "cpp")
           startWorld pl EAGAIN Hpl Hw Hs).
Defined.

Lemma executeCode_leaves_other_files_witness :
  let env := quietEnv printsAnswer in
  children_leave_disk env /\
  exists r w',
    executeCode env jsProgram (lit "javascript") startWorld = (Normal r, w') /\
    forall q, ~ In q (artifactSet env jsProgram (lit "javascript") startWorld) ->
      files w' !! q = files startWorld !! q.
Proof.
  intros env.
  assert (H : children_leave_disk env) by (intros cmd timeout w f; reflexivity).
  split; [exact H|].
  exact (executeCode_leaves_other_files env jsProgram (lit "javascript")
           startWorld H).
Defined.

Lemma java_class_name_is_a_whole_word_witness :
  let m := {| m_before := [];
              m_pieces := [lit "public"; lit " "; lit "class"; lit " ";
                           lit "Main"];
              m_after := lit " { public static void main(String[] a) { } }" |} in
  regex_exec publicClassRe javaProgram = Some m /\
  exists ws1 ws2,
    javaProgram = m_before m ++ lit "public" ++ ws1 ++ lit "class" ++ ws2
                    ++ group1 m ++ m_after m /\
    ws1 <> [] /\ forallb is_space ws1 = true /\
    ws2 <> [] /\ forallb is_space ws2 = true /\
    group1 m <> [] /\ forallb is_word (group1 m) = true /\
    stops is_word (m_after m) /\
    (forall c, In c (group1 m) -> c <> 47%N /\ c <> 92%N /\ c <> 46%N).
Proof.
  intros m.
  assert (H : regex_exec publicClassRe javaProgram = Some m)
    by (vm_compute; reflexivity).
  split; [exact H|].
  exact (java_class_name_is_a_whole_word javaProgram m H).
Defined.

Lemma runTestCases_unsupported_language_witness :
  ~ In (lit "ruby") supported_tags /\
  runTestCases (quietEnv printsAnswer) jsProgram (lit "ruby")
    [answerCase; bigIntCase] startWorld
  = (Normal [unsupportedCase (lit "ruby") answerCase;
             unsupportedCase (lit "ruby") bigIntCase], startWorld).
Proof.
  assert (H : ~ In (lit "ruby") supported_tags).
  { intros H. cbv in H. intuition discriminate. }
  split; [exact H|].
  exact (runTestCases_unsupported_language (quietEnv printsAnswer) jsProgram
           (lit "ruby") [answerCase; bigIntCase] startWorld H).
Defined.

Lemma unserializable_case_is_isolated_witness :
  let env := quietEnv printsAnswer in
  let e := {| message := lit "Do not know how to serialize a BigInt" |} in
  In (lit "javascript") supported_tags /\
  JSON_stringify (TestCase.input bigIntCase) = Throw e /\
  exists rs w',
    runTestCases env jsProgram (lit "javascript") [answerCase] startWorld
      = (Normal rs, w') /\
    runTestCases env jsProgram (lit "javascript") [bigIntCase; answerCase]
      startWorld
      = (Normal (thrownCase e bigIntCase :: rs), w').
Proof.
  intros env e.
  assert (Hl : In (lit "javascript") supported_tags) by (left; reflexivity).
  assert (He : JSON_stringify (TestCase.input bigIntCase) = Throw e)
    by reflexivity.
  split; [exact Hl|]. split; [exact He|].
  exact (unserializable_case_is_isolated env jsProgram (lit "javascript")
           bigIntCase [answerCase] startWorld e Hl He).
Defined.

Lemma entry_block_replaces_the_match_witness :
  let m := {| m_before := [];
              m_pieces := [lit "int main("; []; lit ")"; lit " "; lit "{";
                           lit " return 0; "; lit "}"];
              m_after := [] |} in
  mainPattern (lit "cpp") = Some cppMainRe /\
  regex_exec cppMainRe cppProgram = Some m /\
  JSON_stringify (TestCase.input answerCase) = Normal (lit "1") /\
  dollar_free (lit "1") /\
  cppProgram = m_before m ++ m_text m ++ m_after m /\
  modifyCode cppProgram (lit "cpp") answerCase (@nil TestResult) startWorld
  = (Normal (Some (m_before m ++ generatedMain (lit "cpp") (lit "1")
                     ++ m_after m)), [], startWorld).
Proof.
  intros m.
  assert (H1 : mainPattern (lit "cpp") = Some cppMainRe) by reflexivity.
  assert (H2 : regex_exec cppMainRe cppProgram = Some m)
    by (vm_compute; reflexivity).
  assert (H3 : JSON_stringify (TestCase.input answerCase) = Normal (lit "1"))
    by reflexivity.
  assert (H4 : dollar_free (lit "1")) by reflexivity.
  split; [exact H1|]. split; [exact H2|]. split; [exact H3|].
  split; [exact H4|].
  exact (entry_block_replaces_the_match cppProgram (lit "cpp") answerCase
           (@nil TestResult) startWorld cppMainRe m (lit "1") H1 H2 H3 H4).
Defined.

Lemma dollar_in_input_is_expanded_witness :
  let m := {| m_before := [];
              m_pieces := [lit "int main("; []; lit ")"; lit " "; lit "{";
                           lit " return 0; "; lit "}"];
              m_after := [] |} in
  let a := 34%N :: lit "US" in
  let b := [34%N] in
  mainPattern (lit "cpp") = Some cppMainRe /\
  regex_exec cppMainRe cppProgram = Some m /\
  JSON_stringify (TestCase.input dollarCase) = Normal (a ++ 36%N :: 36%N :: b) /\
  dollar_free a /\ dollar_free b /\
  dollar_expansion m 36 = Some [36%N] /\
  modifyCode cppProgram (lit "cpp") dollarCase (@nil TestResult) startWorld
  = (Normal (Some (m_before m
                     ++ generatedMain (lit "cpp") (a ++ [36%N] ++ b)
                     ++ m_after m)), [], startWorld).
Proof.
  intros m a b.
  assert (H1 : mainPattern (lit "cpp") = Some cppMainRe) by reflexivity.
  assert (H2 : regex_exec cppMainRe cppProgram = Some m)
    by (vm_compute; reflexivity).
  assert (H3 : JSON_stringify (TestCase.input dollarCase)
               = Normal (a ++ 36%N :: 36%N :: b)) by reflexivity.
  assert (Ha : dollar_free a) by reflexivity.
  assert (Hb : dollar_free b) by reflexivity.
  assert (Hx : dollar_expansion m 36 = Some [36%N]) by reflexivity.
  split; [exact H1|]. split; [exact H2|]. split; [exact H3|].
  split; [exact Ha|]. split; [exact Hb|]. split; [exact Hx|].
  exact (dollar_in_input_is_expanded cppProgram (lit "cpp") dollarCase
           (@nil TestResult) startWorld cppMainRe m a b [36%N] 36%N
           H1 H2 H3 Ha Hb Hx).
Defined.

Lemma unsupported_language_submission_fails_witness :
  ~ In (lit "ruby") supported_tags /\
  [answerCase] <> [] /\
  exists s,
    gradeSubmission (quietEnv printsAnswer) jsProgram (lit "ruby") [answerCase]
      startWorld = (Normal s, startWorld) /\
    Submission.success s = false /\
    Submission.passedTests s = 0%nat /\
    Submission.totalTests s = length [answerCase] /\
    Submission.executionTime s = 0.
Proof.
  assert (H : ~ In (lit "ruby") supported_tags).
  { intros H. cbv in H. intuition discriminate. }
  assert (Hne : [answerCase] <> []) by discriminate.
  split; [exact H|]. split; [exact Hne|].
  exact (unsupported_language_submission_fails (quietEnv printsAnswer)
           jsProgram (lit "ruby") [answerCase] startWorld H Hne).
Defined.

Lemma execution_time_present_and_nonnegative_witness :
  let env := quietEnv toolchain in
  monotone_clock env /\
  exists r w' t,
    executeCode env cppProgram (lit "cpp") startWorld = (Normal r, w') /\
    executionTime r = Some t /\ 0 <= t /\ clock startWorld <= clock w'.
Proof.
  intros env.
  assert (H : monotone_clock env).
  { split; [reflexivity|]. intros cmd timeout w. unfold env, quietEnv, toolchain.
    cbn [child]. repeat case_match; cbn [p_elapsed exits_cleanly]; lia. }
  split; [exact H|].
  exact (execution_time_present_and_nonnegative env cppProgram (lit "cpp")
           startWorld H).
Defined.

Lemma runTestCases_draws_one_identifier_per_case_witness :
  let env := quietEnv printsAnswer in
  let testCases := [answerCase; dollarCase] in
  In (lit "python") supported_tags /\
  Forall (fun t => has_bigint (TestCase.input t) = false) testCases /\
  exists results w',
    runTestCases env jsProgram (lit "python") testCases startWorld
      = (Normal results, w') /\
    entropy w' = (entropy startWorld + length testCases)%nat.
Proof.
  intros env testCases.
  assert (Hl : In (lit "python") supported_tags) by (right; left; reflexivity).
  assert (Hall : Forall (fun t => has_bigint (TestCase.input t) = false)
                   testCases) by (repeat constructor).
  split; [exact Hl|]. split; [exact Hall|].
  exact (runTestCases_draws_one_identifier_per_case env jsProgram
           (lit "python") testCases startWorld Hl Hall).
Defined.
